(** * Provisioning and batch ingestion over Google Drive

    A shallow embedding of the Drive repository
    ([backend/src/infrastructure/database/google/drive.repository.js]) and of
    the multi-file endpoints of the Google controller
    ([src/infrastructure/web/controllers/google.controller.js]), with the
    properties the specification states about them. *)

From Stdlib Require Import ZArith NArith String Ascii List Bool Lia.
From stdpp Require Import base option list gmap strings pretty.

(** ** JavaScript strings

    A JavaScript string is a sequence of UTF-16 code units, and a regular
    expression without the [u] flag works on code units.  The naming
    functions are modelled on [list N], so that the characters [\s] matches
    outside ASCII are there. *)
Module JsString.
Local Open Scope N_scope.

Definition jsstring := list N.

(** An ASCII literal as a sequence of code units. *)
Definition lit (s : string) : jsstring :=
  List.map N_of_ascii (list_ascii_of_string s).

Definition in_range (lo hi c : N) : bool := (lo <=? c) && (c <=? hi).

(** [\s]: the WhiteSpace and LineTerminator productions of ECMAScript.
    [String.prototype.trim] strips exactly the same code units. *)
Definition is_space (c : N) : bool :=
  in_range 9 13 c || (c =? 32) || (c =? 160) || (c =? 5760)
  || in_range 8192 8202 c || (c =? 8232) || (c =? 8233) || (c =? 8239)
  || (c =? 8287) || (c =? 12288) || (c =? 65279).

Definition is_letter (c : N) : bool := in_range 65 90 c || in_range 97 122 c.
Definition is_digit (c : N) : bool := in_range 48 57 c.
Definition dot : N := 46.
Definition slash : N := 47.
Definition hyphen : N := 45.
Definition underscore : N := 95.

(** The class [a-zA-Z0-9\s\-_] of the second replacement. *)
Definition in_keep_class (c : N) : bool :=
  is_letter c || is_digit c || is_space c || (c =? hyphen) || (c =? underscore).

(** The class [^/.] of the first replacement. *)
Definition not_slash_dot (c : N) : bool := negb (c =? slash) && negb (c =? dot).

Definition nonempty (s : jsstring) : bool :=
  match s with [] => false | _ :: _ => true end.

(** [s.replace(/\.[^/.]+$/, '')]: the leftmost position holding a dot whose
    whole remainder is a non-empty run of [^/.] is cut off, with the dot. *)
Fixpoint replace_extension (s : jsstring) : jsstring :=
  match s with
  | [] => []
  | c :: r =>
      if (c =? dot) && nonempty r && forallb not_slash_dot r then []
      else c :: replace_extension r
  end.

(** [s.replace(/[^a-zA-Z0-9\s\-_]/g, '')] *)
Definition remove_special (s : jsstring) : jsstring := List.filter in_keep_class s.

(** [s.replace(/\s+/g, '_')]: [in_run] tells that the previous code unit
    belonged to the whitespace run already replaced. *)
Fixpoint replace_spaces_from (in_run : bool) (s : jsstring) : jsstring :=
  match s with
  | [] => []
  | c :: r =>
      if is_space c then
        if in_run then replace_spaces_from true r
        else underscore :: replace_spaces_from true r
      else c :: replace_spaces_from false r
  end.

Definition replace_spaces (s : jsstring) : jsstring := replace_spaces_from false s.

Fixpoint trim_start (s : jsstring) : jsstring :=
  match s with
  | [] => []
  | c :: r => if is_space c then trim_start r else s
  end.

(** [s.trim()] *)
Definition trim (s : jsstring) : jsstring :=
  rev (trim_start (rev (trim_start s))).

(** [generateFolderName(originalname)] *)
Definition generateFolderName (originalname : jsstring) : jsstring :=
  trim (replace_spaces (remove_special (replace_extension originalname))).

(** The characters of a finished name: letters, digits, hyphen, underscore. *)
Definition is_name_char (c : N) : bool :=
  is_letter c || is_digit c || (c =? hyphen) || (c =? underscore).

End JsString.

(** ** Civil dates

    [Intl.DateTimeFormat] turns an instant (milliseconds since the epoch, what
    [new Date()] holds) into the civil date of a named time zone.  The zone
    enters only through its offset from UTC at that instant. *)
Module Calendar.
Local Open Scope Z_scope.

Definition ms_per_day : Z := 86400000.
Definition ms_per_hour : Z := 3600000.

(** Proleptic Gregorian date [(year, month, day)] of a day number counted
    from 1970-01-01. *)
Definition civil_from_days (z : Z) : Z * Z * Z :=
  let z := z + 719468 in
  let era := z / 146097 in
  let doe := z - era * 146097 in
  let yoe := (doe - doe / 1460 + doe / 36524 - doe / 146096) / 365 in
  let doy := doe - (365 * yoe + yoe / 4 - yoe / 100) in
  let mp := (5 * doy + 2) / 153 in
  let d := doy - (153 * mp + 2) / 5 + 1 in
  let m := if mp <? 10 then mp + 3 else mp - 9 in
  let y := yoe + era * 400 in
  (if m <=? 2 then y + 1 else y, m, d).

Definition days_from_civil (y m d : Z) : Z :=
  let y := if m <=? 2 then y - 1 else y in
  let era := y / 400 in
  let yoe := y - era * 400 in
  let doy := (153 * (if 2 <? m then m - 3 else m + 9) + 2) / 5 + d - 1 in
  let doe := yoe * 365 + yoe / 4 - yoe / 100 + doy in
  era * 146097 + doe - 719468.

(** Day of the week of a day number, 0 for Sunday. *)
Definition weekday (days : Z) : Z := (days + 4) mod 7.

(** Day number of the last Sunday of a month whose last day is [last]. *)
Definition last_sunday (y m last : Z) : Z :=
  let d := days_from_civil y m last in d - weekday d.

(** The zone [Europe/Madrid] under the European summer-time rule in force
    since 1996: UTC+1, and UTC+2 from 01:00 UTC on the last Sunday of March
    to 01:00 UTC on the last Sunday of October. *)
Definition europe_madrid (t : Z) : Z :=
  let y := fst (fst (civil_from_days (t / ms_per_day))) in
  let summer_from := last_sunday y 3 31 * ms_per_day + ms_per_hour in
  let summer_to := last_sunday y 10 31 * ms_per_day + ms_per_hour in
  if (summer_from <=? t) && (t <? summer_to) then 2 * ms_per_hour else ms_per_hour.

(** The civil date at instant [t] in the zone with offset rule [zone]. *)
Definition civil_date (zone : Z -> Z) (t : Z) : Z * Z * Z :=
  civil_from_days ((t + zone t) / ms_per_day).

Definition digit (n : Z) : ascii := ascii_of_N (48 + Z.to_N (n mod 10)).

(** [day: '2-digit'] and [month: '2-digit'] *)
Definition two_digits (n : Z) : string :=
  String (digit (n / 10)) (String (digit n) EmptyString).

Fixpoint decimal_go (fuel : nat) (n : Z) (acc : string) : string :=
  match fuel with
  | O => acc
  | S fuel' =>
      let acc' := String (digit n) acc in
      if n <? 10 then acc' else decimal_go fuel' (n / 10) acc'
  end.

(** [year: 'numeric']: the year in decimal, without padding. *)
Definition decimal (n : Z) : string :=
  decimal_go (S (Z.to_nat (Z.log2 n))) n EmptyString.

(** [Intl.DateTimeFormat('es-ES', {timeZone, day: '2-digit',
    month: '2-digit', year: 'numeric'}).format(t)]: [dd/mm/yyyy]. *)
Definition format_es_ES (zone : Z -> Z) (t : Z) : string :=
  let '(y, m, d) := civil_date zone t in
  (two_digits d ++ "/" ++ two_digits m ++ "/" ++ decimal y)%string.

(** [s.replace(/\//g, '-')] *)
Fixpoint replace_slashes (s : string) : string :=
  match s with
  | EmptyString => EmptyString
  | String c r =>
      String (if Ascii.eqb c "/" then "-"%char else c) (replace_slashes r)
  end.

(** The clock of the host: the instant it reads, and the offset of the
    host's own local time zone in minutes. *)
Record host_clock := { epoch_ms : Z; host_utc_offset_min : Z }.

(** [new Date()] holds the instant only. *)
Definition new_Date (h : host_clock) : Z := epoch_ms h.

(** [generateDayFolderName()] *)
Definition generateDayFolderName (h : host_clock) : string :=
  replace_slashes (format_es_ES europe_madrid (new_Date h)).

End Calendar.

(** ** JavaScript values: thrown errors and settled promises *)
Module Js.

(** The fields the handlers read from a thrown value: [error.message],
    [error.code], [error.response.status], [error.response.data.error]. *)
Record error := {
  message : option string;
  code : option Z;
  response_status : option Z;
  response_data_error : option string;
}.

(** [new Error(msg)] *)
Definition Error (msg : string) : error :=
  {| message := Some msg; code := None;
     response_status := None; response_data_error := None |}.

(** How an asynchronous call ends. *)
Inductive outcome (A : Type) : Type :=
| Fulfilled (value : A)
| Rejected (reason : error).
Arguments Fulfilled {A} value.
Arguments Rejected {A} reason.

(** Truthiness of an optional string and of an optional number, for [||]. *)
Definition truthy_string (o : option string) : option string :=
  match o with
  | Some s => if decide (s = EmptyString) then None else Some s
  | None => None
  end.

Definition truthy_number (o : option Z) : option Z :=
  match o with
  | Some n => if decide (n = 0%Z) then None else Some n
  | None => None
  end.

End Js.

(** ** The remote store

    The Drive API as the repository uses it: [files.list], [files.create],
    [files.get] and [permissions.create].  The store keeps its resources in
    creation order, records every request it receives, and fails the request
    numbered [n] when [faults] maps [n] to an error.  A query is kept as its
    fields, not as the query string. *)
Module Drive.
Import Js.

Definition folder_mime : string := "application/vnd.google-apps.folder".

Record file := {
  file_id : string;
  file_name : string;
  file_mimeType : string;
  file_parents : list string;
  file_trashed : bool;
  file_body : string;
}.

Record permission := {
  perm_fileId : string;
  perm_role : string;
  perm_type : string;
}.

Inductive request :=
| FilesList (name mimeType parent : string) (pageSize : nat)
| FilesCreate (name mimeType : string) (parents : list string)
| FilesGet (fileId : string)
| PermissionsCreate (fileId role type : string).

Record state := {
  files : list file;
  permissions : list permission;
  requests : list request;
  faults : gmap nat error;
}.

Definition empty : state :=
  {| files := []; permissions := []; requests := []; faults := ∅ |}.

(** A computation against the store. *)
Definition M (A : Type) : Type := state -> outcome A * state.

Definition ret {A} (a : A) : M A := fun s => (Fulfilled a, s).

Definition throw {A} (e : error) : M A := fun s => (Rejected e, s).

(** [await]: a rejection leaves the rest of the function unexecuted. *)
Definition bind {A B} (m : M A) (k : A -> M B) : M B :=
  fun s =>
    match m s with
    | (Fulfilled a, s') => k a s'
    | (Rejected e, s') => (Rejected e, s')
    end.

#[global] Instance M_ret : MRet M := @ret.
#[global] Instance M_bind : MBind M := fun A B k m => bind m k.

Definition record_request (r : request) (s : state) : state :=
  {| files := files s; permissions := permissions s;
     requests := requests s ++ [r]; faults := faults s |}.

Definition add_file (f : file) (s : state) : state :=
  {| files := files s ++ [f]; permissions := permissions s;
     requests := requests s; faults := faults s |}.

Definition add_permission (p : permission) (s : state) : state :=
  {| files := files s; permissions := permissions s ++ [p];
     requests := requests s; faults := faults s |}.

(** One request: it is recorded, then it fails if a fault is planned for
    its number, and is served otherwise. *)
Definition call {A} (r : request) (serve : M A) : M A :=
  fun s =>
    let s' := record_request r s in
    match faults s !! length (requests s) with
    | Some e => (Rejected e, s')
    | None => serve s'
    end.

(** The id the store gives to the next resource: never empty. *)
Definition next_id (s : state) : string :=
  String "f" (pretty (length (files s))).

Definition find_file (fileId : string) (s : state) : option file :=
  List.find (fun f => bool_decide (file_id f = fileId)) (files s).

Definition not_found (fileId : string) : error :=
  {| message := Some ("File not found: " ++ fileId)%string; code := Some 404%Z;
     response_status := Some 404%Z; response_data_error := None |}.

(** The query [name = 'n' and mimeType = 'm' and 'p' in parents and
    trashed = false]. *)
Definition matches (name mimeType parent : string) (f : file) : bool :=
  bool_decide (file_name f = name) && bool_decide (file_mimeType f = mimeType)
  && bool_decide (parent ∈ file_parents f) && negb (file_trashed f).

Definition files_list (name mimeType parent : string) (pageSize : nat)
  : M (list file) :=
  call (FilesList name mimeType parent pageSize)
    (fun s => (Fulfilled (take pageSize (List.filter (matches name mimeType parent) (files s))), s)).

Definition files_create (name mimeType : string) (parents : list string)
    (body : string) : M file :=
  call (FilesCreate name mimeType parents)
    (fun s =>
       let f := {| file_id := next_id s; file_name := name;
                   file_mimeType := mimeType; file_parents := parents;
                   file_trashed := false; file_body := body |} in
       (Fulfilled f, add_file f s)).

Definition files_get (fileId : string) : M file :=
  call (FilesGet fileId)
    (fun s =>
       match find_file fileId s with
       | Some f => (Fulfilled f, s)
       | None => (Rejected (not_found fileId), s)
       end).

Definition permissions_create (fileId role type : string) : M unit :=
  call (PermissionsCreate fileId role type)
    (fun s =>
       match find_file fileId s with
       | Some _ =>
           (Fulfilled tt,
            add_permission
              {| perm_fileId := fileId; perm_role := role; perm_type := type |} s)
       | None => (Rejected (not_found fileId), s)
       end).

(** The links the store reports for a file. *)
Definition webContentLink (f : file) : string :=
  ("https://drive.google.com/uc?id=" ++ file_id f ++ "&export=download")%string.

Definition webViewLink (f : file) : string :=
  ("https://drive.google.com/file/d/" ++ file_id f ++ "/view")%string.

(** Anyone with the link can read the file. *)
Definition public_read (fileId : string) (s : state) : Prop :=
  {| perm_fileId := fileId; perm_role := "reader"; perm_type := "anyone" |}
    ∈ permissions s.

End Drive.

(** ** The Drive repository ([drive.repository.js]) *)
Module DriveRepository.
Import Js Drive.

(** A node of the folder tree posted to [createFolderStructure]:
    [{ name, children? }]. *)
#[warnings="-register-all"]
Inductive folder_spec :=
| Folder (name : string) (children : option (list folder_spec)).

Definition spec_name (folder : folder_spec) : string :=
  match folder with Folder name _ => name end.

(** [findFolderByName(folderName, parentId)]:
    [search.data.files?.[0]?.id || null] *)
Definition findFolderByName (folderName parentId : string) : M (option string) :=
  search ← files_list folderName folder_mime parentId 1;
  ret (match search with
       | f :: _ => truthy_string (Some (file_id f))
       | [] => None
       end).

(** [createFolder(name, parentId)] *)
Definition createFolder (name parentId : string) : M string :=
  file ← files_create name folder_mime [parentId] EmptyString;
  ret (file_id file).

(** [createRecursiveFolders(folder, parentId)] *)
Fixpoint createRecursiveFolders (folder : folder_spec) (parentId : string)
  : M string :=
  match folder with
  | Folder name children =>
      newFolderId ← createFolder name parentId;
      match children with
      | Some ((_ :: _) as cs) =>
          (fix each (l : list folder_spec) : M unit :=
             match l with
             | [] => ret tt
             | child :: l' =>
                 createRecursiveFolders child newFolderId;;
                 each l'
             end) cs
      | _ => ret tt
      end;;
      ret newFolderId
  end.

Record upload_params := {
  up_name : string;
  up_parentId : string;
  up_mimeType : string;
  up_buffer : string;
}.

(** The fields [id, name, mimeType, webContentLink, webViewLink]. *)
Record metadata := {
  md_id : string;
  md_name : string;
  md_mimeType : string;
  md_webContentLink : string;
  md_webViewLink : string;
}.

Definition metadata_of (f : file) : metadata :=
  {| md_id := file_id f; md_name := file_name f; md_mimeType := file_mimeType f;
     md_webContentLink := webContentLink f; md_webViewLink := webViewLink f |}.

(** [bufferToStream(buffer)]: the same bytes, as a stream. *)
Definition bufferToStream (buffer : string) : string := buffer.

(** [uploadFile({ name, parentId, mimeType, buffer })] *)
Definition uploadFile (p : upload_params) : M metadata :=
  response ← files_create (up_name p) (up_mimeType p) [up_parentId p]
                (bufferToStream (up_buffer p));
  permissions_create (file_id response) "reader" "anyone";;
  updatedFile ← files_get (file_id response);
  ret (metadata_of updatedFile).

(** The resource an upload creates in the store [s], and the permission
    it is given. *)
Definition uploaded_file (p : upload_params) (s : state) : file :=
  {| file_id := next_id s; file_name := up_name p;
     file_mimeType := up_mimeType p; file_parents := [up_parentId p];
     file_trashed := false; file_body := up_buffer p |}.

Definition anyone_reader (fileId : string) : permission :=
  {| perm_fileId := fileId; perm_role := "reader"; perm_type := "anyone" |}.

(** [setPublicReadPermissions(fileId)] *)
Definition setPublicReadPermissions (fileId : string) : M unit :=
  permissions_create fileId "reader" "anyone".

(** [getFileMetadata(fileId)] *)
Definition getFileMetadata (fileId : string) : M file :=
  files_get fileId.

Definition dquote : string := String (ascii_of_N 34) EmptyString.

(** [_getFolderId(key, label)] over the map [driveIds] of drive-ids.json. *)
Definition _getFolderId (driveIds : gmap string string) (key label : string)
  : outcome string :=
  match truthy_string (driveIds !! key) with
  | Some folderId => Fulfilled folderId
  | None =>
      Rejected (Error ("Falta ID de carpeta " ++ dquote ++ label ++ dquote
                       ++ " (key: " ++ key ++ ") en drive-ids.json")%string)
  end.

Definition getIntrastatVentasFolderId (driveIds : gmap string string) :=
  _getFolderId driveIds "intrastat_ventas" "Intrastat ventas".

Definition getIntrastatComprasFolderId (driveIds : gmap string string) :=
  _getFolderId driveIds "intrastat_compras" "Intrastat compras".

Definition getNominasAsesoriasFolderID (driveIds : gmap string string) :=
  _getFolderId driveIds "nominas_asesorias" "Nóminas asesorías".

Definition getNominasNominasFolderID (driveIds : gmap string string) :=
  _getFolderId driveIds "nominas_nominas" "Nóminas nóminas".

Definition getInventarioFolderID (driveIds : gmap string string) :=
  _getFolderId driveIds "inventario" "Inventario".

(** An order in PDF for an internal folder, and a store that holds one
    extracted image. *)
Definition pedido_pdf : upload_params :=
  {| up_name := "pedido.pdf"; up_parentId := "versace_pedidos";
     up_mimeType := "application/pdf"; up_buffer := "%PDF-1.7" |}.

Definition foto_png : file :=
  {| file_id := "img"; file_name := "foto.png"; file_mimeType := "image/png";
     file_parents := ["imgs"]; file_trashed := false; file_body := "PNG" |}.

Definition with_image : state := add_file foto_png Drive.empty.

End DriveRepository.

(** ** Folder resolution *)
Module FolderResolver.
Import Js Drive DriveRepository.

(** Modelled from the spec: [FolderResolver.resolve(name, parentId)].  The
    use case that implements it (createFolderIfNotExists of
    upload_excel_drive.usecase.js) is not among the sources; the two
    repository operations it is built from are.  Following the three steps
    of the contract: query for the folder, return its id if found, create
    the folder and return the new id otherwise. *)
Definition resolve (name parentId : string) : M string :=
  found ← findFolderByName name parentId;
  match found with
  | Some folderId => ret folderId
  | None => createFolder name parentId
  end.

End FolderResolver.

(** ** Promises

    A started asynchronous call is known by the logical time at which it
    settles and by its outcome; a call that hangs never settles.  The
    combinators follow ECMAScript: [Promise.allSettled] and [Promise.all]. *)
Module Promise.
Import Js.

Definition promise (A : Type) : Type := option (nat * outcome A).

(** When and how each of [ps] settles, if they all do. *)
Fixpoint settlements {A} (ps : list (promise A)) : option (list (nat * outcome A)) :=
  match ps with
  | [] => Some []
  | p :: rest =>
      match p, settlements rest with
      | Some x, Some xs => Some (x :: xs)
      | _, _ => None
      end
  end.

(** [Promise.allSettled(ps)]: fulfilled once every promise has settled, with
    the outcomes in the order of [ps]. *)
Definition allSettled {A} (ps : list (promise A)) : promise (list (outcome A)) :=
  match settlements ps with
  | Some settled =>
      Some (max_list (List.map fst settled), Fulfilled (List.map snd settled))
  | None => None
  end.

(** The earliest rejection among [ps]; of two at the same time, the one
    that comes first in [ps]. *)
Fixpoint first_rejection {A} (ps : list (promise A)) : option (nat * error) :=
  match ps with
  | [] => None
  | p :: rest =>
      match p, first_rejection rest with
      | Some (t, Rejected e), Some (t', e') =>
          if (t <=? t')%nat then Some (t, e) else Some (t', e')
      | Some (t, Rejected e), None => Some (t, e)
      | _, later => later
      end
  end.

Definition fulfilled_value {A} (o : outcome A) : option A :=
  match o with Fulfilled v => Some v | Rejected _ => None end.

(** [Promise.all(ps)]: rejected as soon as one promise is rejected,
    fulfilled with the values in the order of [ps] once all are fulfilled. *)
Definition all {A} (ps : list (promise A)) : promise (list A) :=
  match first_rejection ps with
  | Some (t, e) => Some (t, Rejected e)
  | None =>
      match settlements ps with
      | Some settled =>
          Some (max_list (List.map fst settled),
                Fulfilled (omap fulfilled_value (List.map snd settled)))
      | None => None
      end
  end.

(** The promise of an [async] function whose body awaits [p] and then
    turns its outcome into its own with [f]. *)
Definition continue {A B} (f : outcome A -> outcome B) (p : promise A) : promise B :=
  match p with
  | Some (t, o) => Some (t, f o)
  | None => None
  end.

End Promise.

(** ** Request handlers

    A handler runs against the use cases it was given.  The use cases are
    injected dependencies whose code is outside this development: each
    operation is an arbitrary function from the number of the call and its
    arguments to a reply, the delay after which the call settles and its
    outcome, or no reply at all. *)
Module Handler.
Import Js Promise.

(** [req.file] and the members of [req.files], as multer provides them. *)
Record multer_file := {
  originalname : string;
  mimetype : string;
  buffer : string;
}.

(** The argument of [uploadPdfUseCase.execute]. *)
Record execute_args := {
  ea_file : multer_file;
  ea_originalname : string;
  ea_mimetype : string;
  ea_buffer : string;
  ea_parentFolderId : string;
}.

(** The argument of [uploadExcelUseCase.uploadFileToFolder]. *)
Record upload_args := {
  ua_originalname : string;
  ua_mimetype : string;
  ua_buffer : string;
  ua_folderId : string;
}.

(** What the handlers read from the result of [execute]. *)
Record pdf_result := {
  pdf_id : string;
  pdf_name : string;
  pdf_webViewLink : string;
  pdf_webContentLink : string;
  pdf_targetFolderId : string;
  pdf_folderName : string;
}.

(** What the handlers read from the result of [uploadFileToFolder]. *)
Record excel_result := { excel_id : string }.

Inductive use_case_call :=
| ExecuteFolderDia (parentFolderId : string)
| Execute (args : execute_args)
| GetOrCreateMesAnio (parentFolderId mes anio : string)
| CreateFolderIfNotExists (folderName parentFolderId : string)
| UploadFileToFolder (args : upload_args).

Definition reply (A : Type) : Type := option (nat * outcome A).

Record use_cases := {
  executeFolderDia : nat -> string -> reply string;
  execute : nat -> execute_args -> reply pdf_result;
  getOrCreateMesAnio : nat -> string -> string -> string -> reply string;
  createFolderIfNotExists : nat -> string -> string -> reply string;
  uploadFileToFolder : nat -> upload_args -> reply excel_result;
}.

Record dependencies := {
  uploadUseCases : use_cases;
  driveIds : gmap string string;
}.

(** The time, and the calls made to the use cases so far with the time at
    which each was made. *)
Record world := {
  now : nat;
  trace : list (nat * use_case_call);
}.

Definition start : world := {| now := 0; trace := [] |}.

(** A piece of a handler: it may never finish ([None]), return or throw. *)
Definition task (A : Type) : Type := world -> option (outcome A * world).

Definition ret {A} (a : A) : task A := fun w => Some (Fulfilled a, w).

Definition throw {A} (e : error) : task A := fun w => Some (Rejected e, w).

Definition bind {A B} (m : task A) (k : A -> task B) : task B :=
  fun w =>
    match m w with
    | Some (Fulfilled a, w') => k a w'
    | Some (Rejected e, w') => Some (Rejected e, w')
    | None => None
    end.

#[global] Instance task_ret : MRet task := @ret.
#[global] Instance task_bind : MBind task := fun A B k m => bind m k.

(** [try { body } catch (error) { handler }] *)
Definition try_catch {A} (body : task A) (handler : error -> task A) : task A :=
  fun w =>
    match body w with
    | Some (Rejected e, w') => handler e w'
    | done => done
    end.

(** A synchronous call that returns or throws. *)
Definition sync {A} (o : outcome A) : task A := fun w => Some (o, w).

(** Calling a use case: the call is made now, and its promise settles after
    the delay of the reply. *)
Definition started {A} (t : nat) (r : reply A) : promise A :=
  match r with
  | Some (delay, o) => Some (t + delay, o)
  | None => None
  end.

Definition invoke {A} (c : use_case_call) (r : nat -> reply A) : task (promise A) :=
  fun w =>
    Some (Fulfilled (started (now w) (r (length (trace w)))),
          {| now := now w; trace := trace w ++ [(now w, c)] |}).

(** [await p] *)
Definition await {A} (p : promise A) : task A :=
  fun w =>
    match p with
    | Some (t, o) => Some (o, {| now := now w `max` t; trace := trace w |})
    | None => None
    end.

(** [xs.map(f)] for an [f] that makes calls: one after the other, in the
    order of [xs], without awaiting. *)
Fixpoint map_calls {A B} (f : A -> task B) (xs : list A) : task (list B) :=
  match xs with
  | [] => ret []
  | x :: rest =>
      y ← f x;
      ys ← map_calls f rest;
      ret (y :: ys)
  end.

End Handler.

(** ** The Google controller ([google.controller.js]) *)
Module GoogleController.
Import Js Promise Handler.
Import DriveRepository.
Local Open Scope string_scope.

(** An element of [exitosos]. *)
Record exitoso := {
  ex_id : string;
  ex_name : string;
  ex_webViewLink : string;
  ex_webContentLink : string;
  ex_folderId : string;
  ex_folderName : string;
}.

(** An element of [fallidos]: [{ archivo, error }]. *)
Record fallido := {
  fa_archivo : string;
  fa_error : string;
}.

Record resumen := {
  total : nat;
  n_exitosos : nat;
  n_fallidos : nat;
}.

Inductive body :=
| ErrorBody (error : string)
| BatchBody (message : string) (exitosos : list exitoso)
    (fallidos : option (list fallido)) (resumen : resumen)
| NominasBody (id_excel_resumen : string)
    (ids_retenciones ids_nominas : list string).

Record response := {
  status : Z;
  json : body;
}.

Definition respond (code : Z) (b : body) : task response :=
  mret {| status := code; json := b |}.

(** The [catch] block shared by the upload handlers. *)
Definition on_error (e : error) : task response :=
  let code :=
    match truthy_number (Js.code e) with
    | Some c => c
    | None => default 500%Z (truthy_number (response_status e))
    end in
  respond code
    (ErrorBody
       match truthy_string (response_data_error e) with
       | Some text => text
       | None => default "Error interno del servidor." (truthy_string (Js.message e))
       end).

Definition includes (xs : list string) (x : string) : bool :=
  bool_decide (x ∈ xs).

Definition join (sep : string) (xs : list string) : string := String.concat sep xs.

Definition executeArgs (file : multer_file) (parentFolderId : string) : execute_args :=
  {| ea_file := file; ea_originalname := originalname file;
     ea_mimetype := mimetype file; ea_buffer := buffer file;
     ea_parentFolderId := parentFolderId |}.

Definition exitoso_of (pdfResult : pdf_result) : exitoso :=
  {| ex_id := pdf_id pdfResult; ex_name := pdf_name pdfResult;
     ex_webViewLink := pdf_webViewLink pdfResult;
     ex_webContentLink := pdf_webContentLink pdfResult;
     ex_folderId := pdf_targetFolderId pdfResult;
     ex_folderName := pdf_folderName pdfResult |}.

(** [resultado.reason?.message || "Error desconocido"] *)
Definition reason_text (reason : error) : string :=
  default "Error desconocido" (truthy_string (Js.message reason)).

Definition undefined_file : error :=
  Error "Cannot read properties of undefined (reading 'originalname')".

(** [resultados.forEach((resultado, index) => ...)]: the two arrays are
    filled by [push], and a failure is named after [files[index]]. *)
Fixpoint clasificar (files : list multer_file) (index : nat)
    (resultados : list (outcome pdf_result))
    (exitosos : list exitoso) (fallidos : list fallido)
  : outcome (list exitoso * list fallido) :=
  match resultados with
  | [] => Fulfilled (exitosos, fallidos)
  | Fulfilled pdfResult :: rest =>
      clasificar files (S index) rest (exitosos ++ [exitoso_of pdfResult]) fallidos
  | Rejected reason :: rest =>
      match files !! index with
      | Some file =>
          clasificar files (S index) rest exitosos
            (fallidos ++ [{| fa_archivo := originalname file;
                             fa_error := reason_text reason |}])
      | None => Rejected undefined_file
      end
  end.

(** The entries of the fulfilled results, and the entries of the rejected
    ones with the name of the file at the same position, both in the order
    of the arrays. *)
Definition exitosos_de (resultados : list (outcome pdf_result)) : list exitoso :=
  omap (fun o => match o with
                 | Fulfilled pdfResult => Some (exitoso_of pdfResult)
                 | Rejected _ => None
                 end) resultados.

Definition fallidos_de (files : list multer_file)
    (resultados : list (outcome pdf_result)) : list fallido :=
  omap (fun fo : multer_file * outcome pdf_result =>
          match fo.2 with
          | Fulfilled _ => None
          | Rejected reason =>
              Some {| fa_archivo := originalname fo.1; fa_error := reason_text reason |}
          end) (zip files resultados).

(** [fallidos.length === 0 ? 201 : exitosos.length === 0 ? 500 : 207] *)
Definition statusCode (exitosos : list exitoso) (fallidos : list fallido) : Z :=
  if bool_decide (length fallidos = 0) then 201%Z
  else if bool_decide (length exitosos = 0) then 500%Z
  else 207%Z.

(** The statements the two PDF handlers share, from [files.map] to the
    response: every upload is started, all are awaited together, the
    results are sorted into [exitosos] and [fallidos]. *)
Definition subirPDFs (deps : dependencies) (files : list multer_file)
    (idCarpeta : string) : task response :=
  uploadPromises ←
    map_calls
      (fun file =>
         invoke (Execute (executeArgs file idCarpeta))
           (fun n => execute (uploadUseCases deps) n (executeArgs file idCarpeta)))
      files;
  resultados ← await (allSettled uploadPromises);
  '(exitosos, fallidos) ← sync (clasificar files 0 resultados [] []);
  respond (statusCode exitosos fallidos)
    (BatchBody
       (pretty (length exitosos) ++ " de " ++ pretty (length files)
        ++ " PDF(s) subido(s) correctamente")
       exitosos
       (if bool_decide (0 < length fallidos) then Some fallidos else None)
       {| total := length files; n_exitosos := length exitosos;
          n_fallidos := length fallidos |}).

(** The value of a variable that no [case] of a [switch] has assigned. *)
Definition undefined : string := "undefined".

(** The promises [files.map] leaves in [uploadPromises] when it runs in the
    world [w], and the response built from their results. *)
Definition upload_promises (deps : dependencies) (files : list multer_file)
    (idCarpeta : string) (w : world) : list (promise pdf_result) :=
  imap (fun i file =>
          started (now w)
            (execute (uploadUseCases deps) (length (trace w) + i)
               (executeArgs file idCarpeta))) files.

Definition batch_response (files : list multer_file)
    (resultados : list (outcome pdf_result)) : response :=
  let exitosos := exitosos_de resultados in
  let fallidos := fallidos_de files resultados in
  {| status := statusCode exitosos fallidos;
     json :=
       BatchBody
         (pretty (length exitosos) ++ " de " ++ pretty (length files)
          ++ " PDF(s) subido(s) correctamente")
         exitosos
         (if bool_decide (0 < length fallidos) then Some fallidos else None)
         {| total := length files; n_exitosos := length exitosos;
            n_fallidos := length fallidos |} |}.

Definition falta_files : body :=
  ErrorBody ("Falta archivo(s) (form-data " ++ dquote ++ "files" ++ dquote ++ ")").

Definition pdfMimeTypes : list string := ["application/pdf"].

Definition no_pdf (files : list multer_file) : list multer_file :=
  List.filter (fun file => negb (includes pdfMimeTypes (mimetype file))) files.

Definition archivos_invalidos (tipo : string) (archivosInvalidos : list multer_file) : body :=
  ErrorBody ("Todos los archivos deben ser " ++ tipo ++ ". Archivos inválidos: "
             ++ join ", " (List.map originalname archivosInvalidos)).

(** The request of [uploadIntrastatPDF]: [req.files], [req.body.marca]. *)
Record intrastat_request := {
  ir_files : option (list multer_file);
  ir_marca : option string;
}.

(** The [switch (marca)] that picks the root folder. *)
Definition carpeta_intrastat (deps : dependencies) (marca : string) : outcome string :=
  if bool_decide (marca = "COMPRA") then getIntrastatComprasFolderId (driveIds deps)
  else if bool_decide (marca = "VENTA") then getIntrastatVentasFolderId (driveIds deps)
  else Fulfilled undefined.

(** [uploadIntrastatPDF(req, res, next)] *)
Definition uploadIntrastatPDF (deps : dependencies) (req : intrastat_request)
  : task response :=
  try_catch
    (let files := default [] (ir_files req) in
     if bool_decide (length files = 0) then respond 400 falta_files
     else
       match truthy_string (ir_marca req) with
       | None =>
           respond 400
             (ErrorBody ("Falta el campo " ++ dquote ++ "marca" ++ dquote ++ " en el body"))
       | Some marca =>
           let marcasValidas := ["COMPRA"; "VENTA"] in
           if negb (includes marcasValidas marca) then
             respond 400
               (ErrorBody ("Marca no válida. Debe ser una de: " ++ join ", " marcasValidas))
           else
             let archivosInvalidos := no_pdf files in
             if bool_decide (0 < length archivosInvalidos) then
               respond 400 (archivos_invalidos "PDF" archivosInvalidos)
             else
               parentFolderId ← sync (carpeta_intrastat deps marca);
               folderDia ←
                 invoke (ExecuteFolderDia parentFolderId)
                   (fun n => executeFolderDia (uploadUseCases deps) n parentFolderId);
               idCarpeta ← await folderDia;
               subirPDFs deps files idCarpeta
       end)
    on_error.

(** The request passes the checks of [uploadIntrastatPDF], its root folder
    is configured, and the folder of the day resolves to [idCarpeta] after
    [delay]. *)
Record intrastat_accepted (deps : dependencies) (req : intrastat_request)
    (w : world) (files : list multer_file) (parentFolderId idCarpeta : string)
    (delay : nat) : Prop := {
  ia_files : ir_files req = Some files;
  ia_some : files <> [];
  ia_marca : exists marca,
      truthy_string (ir_marca req) = Some marca
      /\ marca ∈ ["COMPRA"; "VENTA"]
      /\ carpeta_intrastat deps marca = Fulfilled parentFolderId;
  ia_pdf : no_pdf files = [];
  ia_dia : executeFolderDia (uploadUseCases deps) (length (trace w)) parentFolderId
           = Some (delay, Fulfilled idCarpeta);
}.

(** The same for [uploadInventarioPDF]. *)
Record inventario_accepted (deps : dependencies)
    (req_files : option (list multer_file))
    (w : world) (files : list multer_file) (parentFolderId idCarpeta : string)
    (delay : nat) : Prop := {
  va_files : req_files = Some files;
  va_some : files <> [];
  va_pdf : no_pdf files = [];
  va_folder : getInventarioFolderID (driveIds deps) = Fulfilled parentFolderId;
  va_dia : executeFolderDia (uploadUseCases deps) (length (trace w)) parentFolderId
           = Some (delay, Fulfilled idCarpeta);
}.

(** The world in which the uploads start: the folder of the day has been
    asked for at the time of [w] and has resolved [delay] later. *)
Definition after_folder (w : world) (parentFolderId : string) (delay : nat) : world :=
  {| now := now w `max` (now w + delay);
     trace := trace w ++ [(now w, ExecuteFolderDia parentFolderId)] |}.

(** [uploadInventarioPDF(req, res, next)] *)
Definition uploadInventarioPDF (deps : dependencies)
    (req_files : option (list multer_file)) : task response :=
  try_catch
    (let files := default [] req_files in
     if bool_decide (length files = 0) then respond 400 falta_files
     else
       let archivosInvalidos := no_pdf files in
       if bool_decide (0 < length archivosInvalidos) then
         respond 400 (archivos_invalidos "PDF" archivosInvalidos)
       else
         parentFolderId ← sync (getInventarioFolderID (driveIds deps));
         folderDia ←
           invoke (ExecuteFolderDia parentFolderId)
             (fun n => executeFolderDia (uploadUseCases deps) n parentFolderId);
         idCarpeta ← await folderDia;
         subirPDFs deps files idCarpeta)
    on_error.

(** The request of [uploadNominasExcels]: the three fields of [req.files]
    and [req.body.anio], [req.body.mes]. *)
Record nominas_request := {
  nr_archivoResumen : option (list multer_file);
  nr_archivosDetalle1 : option (list multer_file);
  nr_archivosDetalle2 : option (list multer_file);
  nr_anio : option string;
  nr_mes : option string;
}.

(** [s.toLowerCase()] on a media type, which is ASCII. *)
Definition lower_ascii (c : ascii) : ascii :=
  let n := N_of_ascii c in
  if ((65 <=? n) && (n <=? 90))%N then ascii_of_N (n + 32) else c.

Fixpoint toLowerCase (s : string) : string :=
  match s with
  | EmptyString => EmptyString
  | String c r => String (lower_ascii c) (toLowerCase r)
  end.

Definition excelMimeTypes : list string :=
  ["application/vnd.ms-excel";
   "application/vnd.openxmlformats-officedocument.spreadsheetml.sheet";
   "application/vnd.ms-excel.sheet.macroenabled.12"].

Definition uploadArgs (archivo : multer_file) (folderId : string) : upload_args :=
  {| ua_originalname := originalname archivo; ua_mimetype := mimetype archivo;
     ua_buffer := buffer archivo; ua_folderId := folderId |}.

(** The [async (archivo) => { try { ... return result.id } catch { return
    null } }] mapped over the detail files: the upload is started, and the
    promise of the arrow function is fulfilled with the id or with [null]. *)
Definition id_o_null (o : outcome excel_result) : outcome (option string) :=
  match o with
  | Fulfilled result => Fulfilled (Some (excel_id result))
  | Rejected _ => Fulfilled None
  end.

Definition subirDetalle (deps : dependencies) (folderId : string)
    (archivo : multer_file) : task (promise (option string)) :=
  p ← invoke (UploadFileToFolder (uploadArgs archivo folderId))
        (fun n => uploadFileToFolder (uploadUseCases deps) n (uploadArgs archivo folderId));
  mret (continue id_o_null p).

(** The members of the array given to the outer [Promise.all]. *)
Inductive parte :=
| Ids (ids : list (option string))
| Subido (result : excel_result).

Definition fulfilled_with {A B} (f : A -> B) (o : outcome A) : outcome B :=
  match o with
  | Fulfilled v => Fulfilled (f v)
  | Rejected e => Rejected e
  end.

Definition not_iterable : error := Error "undefined is not iterable".

(** [ids.filter((id) => id !== null)] *)
Definition sin_nulos (ids : list (option string)) : list string :=
  omap (fun id : option string => id) ids.

(** Paso 3: every upload is started, the detail files under their own
    [try]/[catch], and all of them are awaited together. *)
Definition paso3 (deps : dependencies) (archivoResumen : multer_file)
    (archivosDetalle1 archivosDetalle2 : list multer_file)
    (folderRetenciones folderResumenes folderNominas : string) : task response :=
  retencionesPromises ←
    map_calls (subirDetalle deps folderRetenciones) archivosDetalle2;
  resumenesPromises ←
    map_calls (subirDetalle deps folderResumenes) archivosDetalle1;
  excelPromise ←
    invoke (UploadFileToFolder (uploadArgs archivoResumen folderNominas))
      (fun n => uploadFileToFolder (uploadUseCases deps) n
                  (uploadArgs archivoResumen folderNominas));
  partes ←
    await (all [continue (fulfilled_with Ids) (all retencionesPromises);
                continue (fulfilled_with Ids) (all resumenesPromises);
                continue (fulfilled_with Subido) excelPromise]);
  match partes with
  | [Ids retencionesIds; Ids resumenesIds; Subido excelResumen] =>
      respond 200
        (NominasBody (excel_id excelResumen)
           (sin_nulos retencionesIds) (sin_nulos resumenesIds))
  | _ => throw not_iterable
  end.

(** The promises of the uploads of the detail files [archivos] when they
    are started at time [t], the first as call number [n]; and the ids of
    those that were fulfilled, in the order of the files. *)
Definition detalle_promises (deps : dependencies) (folderId : string)
    (archivos : list multer_file) (t n : nat) : list (promise excel_result) :=
  imap (fun i archivo =>
          started t (uploadFileToFolder (uploadUseCases deps) (n + i)
                       (uploadArgs archivo folderId))) archivos.

Definition id_de (o : outcome excel_result) : option string :=
  match o with
  | Fulfilled result => Some (excel_id result)
  | Rejected _ => None
  end.

Definition ids_subidos (settled : list (nat * outcome excel_result)) : list string :=
  omap (fun x : nat * outcome excel_result => id_de x.2) settled.

Definition no_excel (files : list multer_file) : list multer_file :=
  List.filter
    (fun file => negb (includes excelMimeTypes (toLowerCase (mimetype file)))) files.

(** The folders a payroll request goes through before Paso 3, and the delay
    after which each was obtained. *)
Record preparacion := {
  parentAsesorias : string;
  parentNominas : string;
  folderAnoMes : string;
  folderAnoMesNomina : string;
  folderRetenciones : string;
  folderResumenes : string;
  folderNominas : string;
  delayAnoMes : nat;
  delayAnoMesNomina : nat;
  delayRetenciones : nat;
  delayResumenes : nat;
  delayNominas : nat;
}.

(** The request passes the checks of [uploadNominasExcels], the two roots
    are configured, and the five folders of Paso 1 and Paso 2 are obtained. *)
Record nominas_accepted (deps : dependencies) (req : nominas_request)
    (w : world) (archivoResumen : multer_file)
    (archivosDetalle1 archivosDetalle2 : list multer_file)
    (anio mes : string) (c : preparacion) : Prop := {
  na_resumen : head (default [] (nr_archivoResumen req)) = Some archivoResumen;
  na_detalle1 : nr_archivosDetalle1 req = Some archivosDetalle1;
  na_detalle2 : nr_archivosDetalle2 req = Some archivosDetalle2;
  na_some1 : archivosDetalle1 <> [];
  na_some2 : archivosDetalle2 <> [];
  na_anio : truthy_string (nr_anio req) = Some anio;
  na_mes : truthy_string (nr_mes req) = Some mes;
  na_excel : no_excel (archivoResumen :: archivosDetalle1 ++ archivosDetalle2) = [];
  na_asesorias :
    getNominasAsesoriasFolderID (driveIds deps) = Fulfilled (parentAsesorias c);
  na_nominas :
    getNominasNominasFolderID (driveIds deps) = Fulfilled (parentNominas c);
  na_anoMes :
    getOrCreateMesAnio (uploadUseCases deps) (length (trace w))
      (parentAsesorias c) mes anio
    = Some (delayAnoMes c, Fulfilled (folderAnoMes c));
  na_anoMesNomina :
    getOrCreateMesAnio (uploadUseCases deps) (length (trace w) + 1)
      (parentNominas c) mes anio
    = Some (delayAnoMesNomina c, Fulfilled (folderAnoMesNomina c));
  na_retenciones :
    createFolderIfNotExists (uploadUseCases deps) (length (trace w) + 2)
      "RETENCIONES" (folderAnoMes c)
    = Some (delayRetenciones c, Fulfilled (folderRetenciones c));
  na_resumenes :
    createFolderIfNotExists (uploadUseCases deps) (length (trace w) + 3)
      "RESUMEN" (folderAnoMes c)
    = Some (delayResumenes c, Fulfilled (folderResumenes c));
  na_nominas_dir :
    createFolderIfNotExists (uploadUseCases deps) (length (trace w) + 4)
      "NOMINAS" (folderAnoMesNomina c)
    = Some (delayNominas c, Fulfilled (folderNominas c));
}.

(** The world in which Paso 3 starts. *)
Definition tras_carpetas (w : world) (anio mes : string) (c : preparacion) : world :=
  let t1 := now w `max` (now w + delayAnoMes c) in
  let t2 := t1 `max` (t1 + delayAnoMesNomina c) in
  {| now := t2 `max` max_list [t2 + delayRetenciones c; t2 + delayResumenes c;
                               t2 + delayNominas c];
     trace := trace w
              ++ [(now w, GetOrCreateMesAnio (parentAsesorias c) mes anio);
                  (t1, GetOrCreateMesAnio (parentNominas c) mes anio);
                  (t2, CreateFolderIfNotExists "RETENCIONES" (folderAnoMes c));
                  (t2, CreateFolderIfNotExists "RESUMEN" (folderAnoMes c));
                  (t2, CreateFolderIfNotExists "NOMINAS" (folderAnoMesNomina c))] |}.

(** [uploadNominasExcels(req, res, next)] *)
Definition uploadNominasExcels (deps : dependencies) (req : nominas_request)
  : task response :=
  try_catch
    (let archivoResumen := head (default [] (nr_archivoResumen req)) in
     let archivosDetalle1 := default [] (nr_archivosDetalle1 req) in
     let archivosDetalle2 := default [] (nr_archivosDetalle2 req) in
     match archivoResumen with
     | None => respond 400 (ErrorBody "Falta el archivo de nóminas (archivoResumen)")
     | Some archivoResumen =>
     if bool_decide (length archivosDetalle1 = 0) then
       respond 400 (ErrorBody "Faltan archivos de resúmenes (archivosDetalle1)")
     else if bool_decide (length archivosDetalle2 = 0) then
       respond 400 (ErrorBody "Faltan archivos de retenciones (archivosDetalle2)")
     else
       match truthy_string (nr_anio req), truthy_string (nr_mes req) with
       | Some anio, Some mes =>
           let todosLosArchivos :=
             archivoResumen :: archivosDetalle1 ++ archivosDetalle2 in
           let archivosInvalidos := no_excel todosLosArchivos in
           if bool_decide (0 < length archivosInvalidos) then
             respond 400 (archivos_invalidos "Excel" archivosInvalidos)
           else
             parentFolderIdAsesorias ← sync (getNominasAsesoriasFolderID (driveIds deps));
             parentFolderIdNominas ← sync (getNominasNominasFolderID (driveIds deps));
             (* Paso 1 *)
             p ← invoke (GetOrCreateMesAnio parentFolderIdAsesorias mes anio)
                   (fun n => getOrCreateMesAnio (uploadUseCases deps) n
                               parentFolderIdAsesorias mes anio);
             folderAnoMes ← await p;
             p ← invoke (GetOrCreateMesAnio parentFolderIdNominas mes anio)
                   (fun n => getOrCreateMesAnio (uploadUseCases deps) n
                               parentFolderIdNominas mes anio);
             folderAnoMesNomina ← await p;
             (* Paso 2 *)
             p1 ← invoke (CreateFolderIfNotExists "RETENCIONES" folderAnoMes)
                    (fun n => createFolderIfNotExists (uploadUseCases deps) n
                                "RETENCIONES" folderAnoMes);
             p2 ← invoke (CreateFolderIfNotExists "RESUMEN" folderAnoMes)
                    (fun n => createFolderIfNotExists (uploadUseCases deps) n
                                "RESUMEN" folderAnoMes);
             p3 ← invoke (CreateFolderIfNotExists "NOMINAS" folderAnoMesNomina)
                    (fun n => createFolderIfNotExists (uploadUseCases deps) n
                                "NOMINAS" folderAnoMesNomina);
             carpetas ← await (all [p1; p2; p3]);
             match carpetas with
             | [folderRetenciones; folderResumenes; folderNominas] =>
                 paso3 deps archivoResumen archivosDetalle1 archivosDetalle2
                   folderRetenciones folderResumenes folderNominas
             | _ => throw not_iterable
             end
       | _, _ =>
           respond 400
             (ErrorBody ("Faltan los campos " ++ dquote ++ "anio" ++ dquote ++ " y/o "
                         ++ dquote ++ "mes" ++ dquote ++ " en el body"))
       end
     end)
    on_error.

End GoogleController.

(** ** Measures of a folder tree *)
Module FolderTree.
Import Js Drive DriveRepository.

(** The number of nodes of a tree. *)
Fixpoint size (folder : folder_spec) : nat :=
  match folder with
  | Folder _ children =>
      S match children with
        | Some cs =>
            (fix sum (l : list folder_spec) : nat :=
               match l with
               | [] => 0
               | child :: l' => size child + sum l'
               end) cs
        | None => 0
        end
  end.

(** The names of a tree, a node before its children and the children from
    the first to the last. *)
Fixpoint preorder (folder : folder_spec) : list string :=
  match folder with
  | Folder name children =>
      name :: match children with
              | Some cs =>
                  (fix names (l : list folder_spec) : list string :=
                     match l with
                     | [] => []
                     | child :: l' => preorder child ++ names l'
                     end) cs
              | None => []
              end
  end.

(** The folder the store holds for a node created under [parentId]. *)
Definition folder_file (id name parentId : string) : file :=
  {| file_id := id; file_name := name; file_mimeType := folder_mime;
     file_parents := [parentId]; file_trashed := false;
     file_body := EmptyString |}.

(** [fs] holds the tree [folder] under [parentId], its root having [id]:
    the root is a folder of [fs] with that id, name and parent, and every
    child is held under [id]. *)
Fixpoint held (fs : list file) (folder : folder_spec) (parentId id : string)
  : Prop :=
  match folder with
  | Folder name children =>
      folder_file id name parentId ∈ fs
      /\ match children with
         | Some cs =>
             (fix each (l : list folder_spec) : Prop :=
                match l with
                | [] => True
                | child :: l' => (exists cid, held fs child id cid) /\ each l'
                end) cs
         | None => True
         end
  end.

(** The loop over the children in [createRecursiveFolders], and the same
    measures over a list of trees. *)
Definition createChildren (cs : list folder_spec) (newFolderId : string)
  : M unit :=
  (fix each (l : list folder_spec) : M unit :=
     match l with
     | [] => mret tt
     | child :: l' => createRecursiveFolders child newFolderId;; each l'
     end) cs.

Definition size_all (cs : list folder_spec) : nat :=
  (fix sum (l : list folder_spec) : nat :=
     match l with
     | [] => 0
     | child :: l' => size child + sum l'
     end) cs.

Definition preorder_all (cs : list folder_spec) : list string :=
  (fix names (l : list folder_spec) : list string :=
     match l with
     | [] => []
     | child :: l' => preorder child ++ names l'
     end) cs.

Definition held_all (fs : list file) (cs : list folder_spec) (id : string)
  : Prop :=
  (fix each (l : list folder_spec) : Prop :=
     match l with
     | [] => True
     | child :: l' => (exists cid, held fs child id cid) /\ each l'
     end) cs.

(** The request that creates a given folder. *)
Definition create_request (f : file) : request :=
  FilesCreate (file_name f) (file_mimeType f) (file_parents f).

(** The tree of the specification: A with the children B and C, C with
    the child D. *)
Definition example_tree : folder_spec :=
  Folder "A" (Some [Folder "B" (Some []); Folder "C" (Some [Folder "D" (Some [])])]).

(** Induction over a tree, with the property known of every child. *)
Fixpoint folder_spec_induction (P : folder_spec -> Prop)
    (step : forall name children, Forall P (default [] children) -> P (Folder name children))
    (folder : folder_spec) : P folder :=
  match folder with
  | Folder name children =>
      step name children
        match children as o return Forall P (default [] o) with
        | Some cs =>
            (fix all (l : list folder_spec) : Forall P l :=
               match l with
               | [] => @List.Forall_nil _ P
               | child :: l' =>
                   @List.Forall_cons _ P child l' (folder_spec_induction P step child) (all l')
               end) cs
        | None => @List.Forall_nil _ P
        end
  end.

(** What a run that creates the folders [created] leaves behind. *)
Definition extends (s s' : state) (created : list file) : Prop :=
  faults s' = faults s /\ permissions s' = permissions s
  /\ files s' = files s ++ created
  /\ requests s' = requests s ++ (create_request <$> created).

Definition tree_created (folder : folder_spec) : Prop :=
  forall parentId s, faults s = ∅ ->
  exists s' created,
    createRecursiveFolders folder parentId s = (Fulfilled (next_id s), s')
    /\ extends s s' created
    /\ length created = size folder
    /\ file_name <$> created = preorder folder
    /\ head created = Some (folder_file (next_id s) (spec_name folder) parentId)
    /\ forall fs, created ⊆ fs -> held fs folder parentId (next_id s).

Definition children_created (cs : list folder_spec) : Prop :=
  forall id s, faults s = ∅ ->
  exists s' created,
    createChildren cs id s = (Fulfilled tt, s')
    /\ extends s s' created
    /\ length created = size_all cs
    /\ file_name <$> created = preorder_all cs
    /\ forall fs, created ⊆ fs -> held_all fs cs id.

End FolderTree.

(** ** A batch of three *)
Module Escenario.
Import Js Promise Handler GoogleController.
Local Open Scope string_scope.

Definition pdf (name : string) : multer_file :=
  {| originalname := name; mimetype := "application/pdf"; buffer := "%PDF" |}.

Definition subido (args : execute_args) : pdf_result :=
  {| pdf_id := "id-" ++ ea_originalname args; pdf_name := ea_originalname args;
     pdf_webViewLink := "view"; pdf_webContentLink := "content";
     pdf_targetFolderId := ea_parentFolderId args; pdf_folderName := "01-11-2026" |}.

Definition xls (name : string) : multer_file :=
  {| originalname := name; mimetype := "application/vnd.ms-excel"; buffer := "XLS" |}.

(** Use cases that refuse the files named b.pdf and b.xls and take every
    other file; of the PDF uploads the later calls settle first. *)
Definition casos : use_cases :=
  {| executeFolderDia := fun _ parentFolderId => Some (2, Fulfilled ("dia-" ++ parentFolderId));
     execute := fun n args =>
       if String.eqb (ea_originalname args) "b.pdf"
       then Some (1, Rejected (Error "quota"))
       else Some (7 - n, Fulfilled (subido args));
     getOrCreateMesAnio := fun _ parentFolderId mes anio =>
       Some (1, Fulfilled (anio ++ "-" ++ mes ++ "@" ++ parentFolderId));
     createFolderIfNotExists := fun _ folderName parentFolderId =>
       Some (1, Fulfilled (folderName ++ "@" ++ parentFolderId));
     uploadFileToFolder := fun _ args =>
       if String.eqb (ua_originalname args) "b.xls"
       then Some (1, Rejected (Error "quota"))
       else Some (3, Fulfilled {| excel_id := "id-" ++ ua_originalname args |}) |}.

Definition deps : dependencies :=
  {| uploadUseCases := casos;
     driveIds := {[ "intrastat_compras" := "IC"; "inventario" := "INV";
                    "nominas_asesorias" := "NA"; "nominas_nominas" := "NN" ]} |}.

Definition tres : list multer_file := [pdf "a.pdf"; pdf "b.pdf"; pdf "c.pdf"].

Definition compra (files : list multer_file) : intrastat_request :=
  {| ir_files := Some files; ir_marca := Some "COMPRA" |}.

(** The results of the three uploads, in the order of the files. *)
Definition resultados_tres : list (outcome pdf_result) :=
  [Fulfilled (subido (executeArgs (pdf "a.pdf") "dia-IC"));
   Rejected (Error "quota");
   Fulfilled (subido (executeArgs (pdf "c.pdf") "dia-IC"))].

Definition resultados_inventario : list (outcome pdf_result) :=
  [Fulfilled (subido (executeArgs (pdf "a.pdf") "dia-INV"));
   Rejected (Error "quota");
   Fulfilled (subido (executeArgs (pdf "c.pdf") "dia-INV"))].

(** When and how the three uploads settle: the second first, the first
    last. *)
Definition settled_tres : list (nat * outcome pdf_result) :=
  [(8, Fulfilled (subido (executeArgs (pdf "a.pdf") "dia-IC")));
   (3, Rejected (Error "quota"));
   (6, Fulfilled (subido (executeArgs (pdf "c.pdf") "dia-IC")))].

(** Two payroll requests that differ in one detail file, b.xls, whose
    upload is refused. *)
Definition nominas (archivosDetalle1 : list multer_file) : nominas_request :=
  {| nr_archivoResumen := Some [xls "r.xls"];
     nr_archivosDetalle1 := Some archivosDetalle1;
     nr_archivosDetalle2 := Some [xls "t.xls"];
     nr_anio := Some "2026"; nr_mes := Some "11" |}.

Definition nominas_con_fallo : nominas_request := nominas [xls "b.xls"; xls "a.xls"].

Definition nominas_sin_fallo : nominas_request := nominas [xls "a.xls"].

Definition carpetas : preparacion :=
  {| parentAsesorias := "NA"; parentNominas := "NN";
     folderAnoMes := "2026-11@NA"; folderAnoMesNomina := "2026-11@NN";
     folderRetenciones := "RETENCIONES@2026-11@NA";
     folderResumenes := "RESUMEN@2026-11@NA";
     folderNominas := "NOMINAS@2026-11@NN";
     delayAnoMes := 1; delayAnoMesNomina := 1; delayRetenciones := 1;
     delayResumenes := 1; delayNominas := 1 |}.

End Escenario.

(** ** Runs of the repository against a failing store *)
Module StoreRuns.
Import Js Drive DriveRepository FolderTree.

(** What a run of creations that met a store failure, or none, leaves
    behind: the folders [created] before it stopped, of [total] to create. *)
Definition stopped {A} (s s' : state) (o : outcome A) (total : nat) : Prop :=
  faults s' = faults s
  /\ permissions s' = permissions s
  /\ exists created,
       files s' = files s ++ created
       /\ match o with
          | Fulfilled _ =>
              requests s' = requests s ++ (create_request <$> created)
              /\ length created = total
          | Rejected e =>
              (exists name parentId,
                  requests s'
                  = requests s ++ (create_request <$> created)
                    ++ [FilesCreate name folder_mime [parentId]])
              /\ faults s !! (length (requests s) + length created) = Some e
              /\ length created < total
          end.

(** A store that fails its request number [n] with a quota error. *)
Definition quota : error :=
  {| message := Some "User rate limit exceeded"; code := Some 403%Z;
     response_status := Some 403%Z; response_data_error := None |}.

Definition failing_at (n : nat) : state :=
  {| files := []; permissions := []; requests := []; faults := {[ n := quota ]} |}.

(** A tree whose creation, under any parent and against any store, stops
    as [stopped] says. *)
Definition tree_stops (folder : folder_spec) : Prop :=
  forall parentId s,
    stopped s (createRecursiveFolders folder parentId s).2
      (createRecursiveFolders folder parentId s).1 (size folder).

End StoreRuns.

(** ** Requests that stop before the uploads *)
Module Rejections.
Import Js Promise Handler DriveRepository GoogleController Escenario.
Local Open Scope string_scope.

(** One of the four checks of [uploadIntrastatPDF] fails. *)
Definition intrastat_invalid (req : intrastat_request) : Prop :=
  default [] (ir_files req) = []
  \/ truthy_string (ir_marca req) = None
  \/ (exists marca, truthy_string (ir_marca req) = Some marca
                    /\ marca ∉ ["COMPRA"; "VENTA"])
  \/ no_pdf (default [] (ir_files req)) <> [].

(** The four checks pass, for the files [files] and the kind [marca]. *)
Record intrastat_checked (req : intrastat_request) (files : list multer_file)
    (marca : string) : Prop := {
  ic_files : ir_files req = Some files;
  ic_some : files <> [];
  ic_marca : truthy_string (ir_marca req) = Some marca;
  ic_valid : marca ∈ ["COMPRA"; "VENTA"];
  ic_pdf : no_pdf files = [];
}.

(** The answer of the [catch] block to a thrown [e]. *)
Definition error_response (e : error) : response :=
  {| status := match truthy_number (Js.code e) with
               | Some c => c
               | None => default 500%Z (truthy_number (response_status e))
               end;
     json := ErrorBody
               match truthy_string (response_data_error e) with
               | Some text => text
               | None => default "Error interno del servidor." (truthy_string (Js.message e))
               end |}.

Definition txt (name : string) : multer_file :=
  {| originalname := name; mimetype := "text/plain"; buffer := "hola" |}.

(** Use cases whose folder of the day cannot be resolved. *)
Definition sin_carpeta : use_cases :=
  {| executeFolderDia := fun _ _ => Some (2, Rejected (Error "quota"));
     execute := execute casos;
     getOrCreateMesAnio := getOrCreateMesAnio casos;
     createFolderIfNotExists := createFolderIfNotExists casos;
     uploadFileToFolder := uploadFileToFolder casos |}.

Definition deps_sin_carpeta : dependencies :=
  {| uploadUseCases := sin_carpeta; driveIds := driveIds deps |}.

(** Use cases that refuse the summary file r.xls, and of which the upload
    of h.xls never settles. *)
Definition sin_resumen : use_cases :=
  {| executeFolderDia := executeFolderDia casos;
     execute := execute casos;
     getOrCreateMesAnio := getOrCreateMesAnio casos;
     createFolderIfNotExists := createFolderIfNotExists casos;
     uploadFileToFolder := fun n args =>
       if String.eqb (ua_originalname args) "r.xls"
       then Some (2, Rejected (Error "quota"))
       else if String.eqb (ua_originalname args) "h.xls" then None
       else uploadFileToFolder casos n args |}.

Definition deps_sin_resumen : dependencies :=
  {| uploadUseCases := sin_resumen; driveIds := driveIds deps |}.

End Rejections.

(** * Properties *)

(** ** Folder names from arbitrary text *)
Module NamingFacts.
Import JsString.
Local Open Scope N_scope.

Ltac bool_arith :=
  unfold is_name_char, in_keep_class, not_slash_dot, is_space, is_letter,
    is_digit, in_range, dot, slash, hyphen, underscore in *;
  repeat match goal with
    | H : _ |- _ =>
        progress rewrite ?orb_true_iff, ?andb_true_iff, ?orb_false_iff,
          ?andb_false_iff, ?negb_true_iff, ?negb_false_iff, ?N.leb_le,
          ?N.eqb_eq, ?N.leb_gt, ?N.eqb_neq in H
    end;
  rewrite ?orb_true_iff, ?andb_true_iff, ?orb_false_iff, ?andb_false_iff,
    ?negb_true_iff, ?negb_false_iff, ?N.leb_le, ?N.eqb_eq, ?N.leb_gt,
    ?N.eqb_neq;
  lia.

Lemma name_char_keep c : is_name_char c = true -> in_keep_class c = true.
Proof. intros H. bool_arith. Qed.

Lemma name_char_no_space c : is_name_char c = true -> is_space c = false.
Proof. intros H. bool_arith. Qed.

Lemma name_char_no_dot c : is_name_char c = true -> (c =? dot) = false.
Proof. intros H. bool_arith. Qed.

Lemma name_char_not_slash_dot c : is_name_char c = true -> not_slash_dot c = true.
Proof. intros H. bool_arith. Qed.

Lemma space_keep c : is_space c = true -> in_keep_class c = true.
Proof. intros H. unfold in_keep_class. rewrite H. now rewrite !orb_true_r. Qed.

Lemma space_no_dot c : is_space c = true -> (c =? dot) = false.
Proof. intros H. bool_arith. Qed.

Lemma keep_no_space_name c :
  in_keep_class c = true -> is_space c = false -> is_name_char c = true.
Proof.
  unfold in_keep_class, is_name_char. intros H Hs. rewrite Hs in H.
  rewrite orb_false_r in H. exact H.
Qed.

Lemma underscore_name : is_name_char underscore = true.
Proof. reflexivity. Qed.

(** *** The stages on text they leave alone *)

Lemma replace_extension_no_dot s :
  forallb (fun c => negb (c =? dot)) s = true -> replace_extension s = s.
Proof.
  induction s as [|c r IH]; simpl; [reflexivity|].
  rewrite andb_true_iff, negb_true_iff. intros [Hc Hr].
  rewrite Hc. simpl. now rewrite IH.
Qed.

Lemma remove_special_keep s :
  forallb in_keep_class s = true -> remove_special s = s.
Proof.
  unfold remove_special. induction s as [|c r IH]; simpl; [reflexivity|].
  rewrite andb_true_iff. intros [Hc Hr]. rewrite Hc. now rewrite IH.
Qed.

Lemma replace_spaces_no_space s b :
  forallb (fun c => negb (is_space c)) s = true -> replace_spaces_from b s = s.
Proof.
  revert b. induction s as [|c r IH]; intros b; simpl; [reflexivity|].
  rewrite andb_true_iff, negb_true_iff. intros [Hc Hr].
  rewrite Hc. now rewrite IH.
Qed.

Lemma trim_start_no_space s :
  forallb (fun c => negb (is_space c)) s = true -> trim_start s = s.
Proof.
  destruct s as [|c r]; simpl; [reflexivity|].
  rewrite andb_true_iff, negb_true_iff. intros [Hc _]. now rewrite Hc.
Qed.

Lemma forallb_rev {A} (P : A -> bool) (s : list A) :
  forallb P (rev s) = forallb P s.
Proof.
  induction s as [|c r IH]; simpl; [reflexivity|].
  rewrite forallb_app, IH. simpl. rewrite andb_true_r. apply andb_comm.
Qed.

Lemma trim_no_space s :
  forallb (fun c => negb (is_space c)) s = true -> trim s = s.
Proof.
  intros H. unfold trim. rewrite (trim_start_no_space s H).
  rewrite trim_start_no_space by now rewrite forallb_rev.
  apply rev_involutive.
Qed.

Lemma forallb_impl {A} (P Q : A -> bool) (s : list A) :
  (forall c, P c = true -> Q c = true) ->
  forallb P s = true -> forallb Q s = true.
Proof.
  intros HPQ. induction s as [|c r IH]; simpl; [reflexivity|].
  rewrite !andb_true_iff. intros [Hc Hr]. split; auto.
Qed.

Lemma name_chars_no_space s :
  forallb is_name_char s = true ->
  forallb (fun c => negb (is_space c)) s = true.
Proof.
  apply forallb_impl. intros c H. now rewrite (name_char_no_space c H).
Qed.

Lemma name_chars_no_dot s :
  forallb is_name_char s = true ->
  forallb (fun c => negb (c =? dot)) s = true.
Proof.
  apply forallb_impl. intros c H. now rewrite (name_char_no_dot c H).
Qed.

Lemma name_chars_keep s :
  forallb is_name_char s = true -> forallb in_keep_class s = true.
Proof. apply forallb_impl, name_char_keep. Qed.

(** A finished name is left as it is. *)
Lemma generateFolderName_fixed s :
  forallb is_name_char s = true -> generateFolderName s = s.
Proof.
  intros H. unfold generateFolderName, replace_spaces.
  rewrite replace_extension_no_dot by now apply name_chars_no_dot.
  rewrite remove_special_keep by now apply name_chars_keep.
  rewrite replace_spaces_no_space by now apply name_chars_no_space.
  apply trim_no_space. now apply name_chars_no_space.
Qed.

(** *** What every stage lets through *)

Lemma remove_special_all_keep s : forallb in_keep_class (remove_special s) = true.
Proof.
  unfold remove_special. induction s as [|c r IH]; simpl; [reflexivity|].
  destruct (in_keep_class c) eqn:Hc; simpl; [now rewrite Hc|exact IH].
Qed.

Lemma replace_spaces_name_chars s b :
  forallb in_keep_class s = true ->
  forallb is_name_char (replace_spaces_from b s) = true.
Proof.
  revert b. induction s as [|c r IH]; intros b; simpl; [reflexivity|].
  rewrite andb_true_iff. intros [Hc Hr].
  destruct (is_space c) eqn:Hs.
  - destruct b; cbn [forallb]; rewrite ?underscore_name; cbn [andb]; auto.
  - cbn [forallb]. rewrite (keep_no_space_name c Hc Hs). cbn [andb]. auto.
Qed.

Lemma trim_start_forallb (P : N -> bool) s :
  forallb P s = true -> forallb P (trim_start s) = true.
Proof.
  induction s as [|c r IH]; simpl; [reflexivity|].
  rewrite andb_true_iff. intros [Hc Hr].
  destruct (is_space c); [auto|]. simpl. now rewrite Hc, Hr.
Qed.

Lemma trim_forallb (P : N -> bool) s :
  forallb P s = true -> forallb P (trim s) = true.
Proof.
  intros H. unfold trim. rewrite forallb_rev. apply trim_start_forallb.
  rewrite forallb_rev. now apply trim_start_forallb.
Qed.

Lemma generateFolderName_name_chars s :
  forallb is_name_char (generateFolderName s) = true.
Proof.
  unfold generateFolderName, replace_spaces.
  apply trim_forallb, replace_spaces_name_chars, remove_special_all_keep.
Qed.

(** *** The stages on text built from words *)

Lemma replace_extension_cut u e :
  forallb is_name_char u = true -> forallb is_name_char e = true -> e <> [] ->
  replace_extension (u ++ dot :: e) = u.
Proof.
  intros Hu He Hne. induction u as [|c r IH]; simpl.
  - destruct e as [|d e']; [congruence|].
    cbn [nonempty andb]. rewrite (forallb_impl _ _ _ name_char_not_slash_dot He).
    reflexivity.
  - simpl in Hu. apply andb_true_iff in Hu as [Hc Hr].
    rewrite (name_char_no_dot c Hc). cbn [andb]. now rewrite IH.
Qed.

Lemma replace_spaces_word u b rest :
  forallb is_name_char u = true -> u <> [] ->
  replace_spaces_from b (u ++ rest) = u ++ replace_spaces_from false rest.
Proof.
  revert b. induction u as [|c r IH]; intros b Hu Hne; [congruence|].
  simpl in Hu. apply andb_true_iff in Hu as [Hc Hr].
  simpl. rewrite (name_char_no_space c Hc). f_equal.
  destruct r as [|d r']; [reflexivity|]. now apply IH.
Qed.

Lemma replace_spaces_run ws rest :
  forallb is_space ws = true ->
  replace_spaces_from true (ws ++ rest) = replace_spaces_from true rest.
Proof.
  induction ws as [|c r IH]; simpl; [reflexivity|].
  rewrite andb_true_iff. intros [Hc Hr]. now rewrite Hc, IH.
Qed.

Lemma replace_spaces_first_run ws rest :
  forallb is_space ws = true -> ws <> [] ->
  replace_spaces_from false (ws ++ rest)
  = underscore :: replace_spaces_from true rest.
Proof.
  destruct ws as [|c r]; [congruence|]. simpl.
  rewrite andb_true_iff. intros [Hc Hr] _. rewrite Hc.
  now rewrite replace_spaces_run.
Qed.

Lemma words_all P (u v : jsstring) (c : N) :
  forallb P u = true -> P c = true -> forallb P v = true ->
  forallb P (u ++ c :: v) = true.
Proof. intros Hu Hc Hv. rewrite forallb_app. simpl. now rewrite Hu, Hc, Hv. Qed.

Lemma generateFolderName_spaces u ws v :
  forallb is_name_char u = true -> u <> [] ->
  forallb is_space ws = true -> ws <> [] ->
  forallb is_name_char v = true -> v <> [] ->
  generateFolderName (u ++ ws ++ v) = u ++ underscore :: v.
Proof.
  intros Hu Hune Hws Hwsne Hv Hvne.
  unfold generateFolderName, replace_spaces.
  rewrite replace_extension_no_dot.
  2:{ rewrite !forallb_app, (name_chars_no_dot u Hu), (name_chars_no_dot v Hv).
      rewrite (forallb_impl is_space (fun c => negb (c =? dot)) ws); [reflexivity| |exact Hws].
      intros c Hc. now rewrite (space_no_dot c Hc). }
  rewrite remove_special_keep.
  2:{ rewrite !forallb_app, (name_chars_keep u Hu), (name_chars_keep v Hv).
      now rewrite (forallb_impl is_space in_keep_class ws space_keep Hws). }
  rewrite replace_spaces_word by assumption.
  rewrite replace_spaces_first_run by assumption.
  rewrite replace_spaces_no_space by now apply name_chars_no_space.
  apply trim_no_space, name_chars_no_space.
  now apply words_all.
Qed.

Lemma generateFolderName_deletes u c v :
  forallb is_name_char u = true -> forallb is_name_char v = true ->
  in_keep_class c = false -> c <> dot ->
  generateFolderName (u ++ c :: v) = u ++ v.
Proof.
  intros Hu Hv Hc Hdot.
  assert (Huv : forallb is_name_char (u ++ v) = true)
    by now rewrite forallb_app, Hu, Hv.
  transitivity (generateFolderName (u ++ v));
    [|now apply generateFolderName_fixed].
  unfold generateFolderName. f_equal. f_equal.
  rewrite (replace_extension_no_dot (u ++ c :: v)).
  - rewrite (replace_extension_no_dot (u ++ v)) by now apply name_chars_no_dot.
    unfold remove_special. rewrite !List.filter_app. simpl. now rewrite Hc.
  - rewrite forallb_app. simpl.
    rewrite (name_chars_no_dot u Hu), (name_chars_no_dot v Hv).
    apply N.eqb_neq in Hdot. now rewrite Hdot.
Qed.

Lemma generateFolderName_extension u e :
  forallb is_name_char u = true -> forallb is_name_char e = true -> e <> [] ->
  generateFolderName (u ++ dot :: e) = u.
Proof.
  intros Hu He Hne.
  transitivity (generateFolderName u); [|now apply generateFolderName_fixed].
  unfold generateFolderName. rewrite replace_extension_cut by assumption.
  now rewrite (replace_extension_no_dot u) by now apply name_chars_no_dot.
Qed.

(** C5, as the code has it.  [generateFolderName] cuts a trailing extension
    (a last dot followed by one or more characters other than [/] and [.]),
    deletes every character outside letters, digits, whitespace, hyphen
    and underscore, and puts one underscore in place of each run of
    whitespace between two words; nothing but letters, digits, hyphens and
    underscores is left in the result.  A character outside the set is
    deleted, not turned into an underscore: the name of
    ["Informe Q1 (2025).xlsx"] is ["Informe_Q1_2025"] and the name of
    ["a/b:c"] is ["abc"]. *)
Theorem generateFolderName_rules (u ws v s : jsstring) (c : N) :
  forallb is_name_char u = true -> u <> [] ->
  forallb is_name_char v = true -> v <> [] ->
  forallb is_space ws = true -> ws <> [] ->
  in_keep_class c = false -> c <> dot ->
  generateFolderName (u ++ dot :: v) = u
  /\ generateFolderName (u ++ c :: v) = u ++ v
  /\ generateFolderName (u ++ ws ++ v) = u ++ underscore :: v
  /\ forallb is_name_char (generateFolderName s) = true
  /\ generateFolderName (lit "Informe Q1 (2025).xlsx") = lit "Informe_Q1_2025"
  /\ generateFolderName (lit "a/b:c") = lit "abc".
Proof.
  intros Hu Hune Hv Hvne Hws Hwsne Hc Hdot. repeat split.
  - now apply generateFolderName_extension.
  - now apply generateFolderName_deletes.
  - now apply generateFolderName_spaces.
  - apply generateFolderName_name_chars.
Qed.

Lemma generateFolderName_rules_witness :
  generateFolderName (lit "Q1" ++ dot :: lit "xlsx") = lit "Q1"
  /\ generateFolderName (lit "Q1" ++ 40 :: lit "xlsx") = lit "Q1" ++ lit "xlsx"
  /\ generateFolderName (lit "Q1" ++ [32; 9; 160] ++ lit "xlsx")
     = lit "Q1" ++ underscore :: lit "xlsx"
  /\ forallb is_name_char (generateFolderName (lit "  a/b:c  ")) = true
  /\ generateFolderName (lit "Informe Q1 (2025).xlsx") = lit "Informe_Q1_2025"
  /\ generateFolderName (lit "a/b:c") = lit "abc".
Proof.
  apply (generateFolderName_rules (lit "Q1") [32; 9; 160] (lit "xlsx")
           (lit "  a/b:c  ") 40);
    first [reflexivity | discriminate].
Defined.

(** C5 as the specification words it fails on its own second example: the
    slash and the colon of ["  a/b:c  "] are deleted, and the blanks at both
    ends have become underscores before [trim] runs. *)
Lemma generateFolderName_second_example :
  generateFolderName (lit "  a/b:c  ") = lit "_abc_"
  /\ generateFolderName (lit "  a/b:c  ") <> lit "a_b_c".
Proof. split; [reflexivity | discriminate]. Qed.

(** C6.  [generateFolderName] returns a name for every string, and applying
    it to one of its results changes nothing. *)
Theorem generateFolderName_idempotent (x : jsstring) :
  (exists y, generateFolderName x = y)
  /\ generateFolderName (generateFolderName x) = generateFolderName x.
Proof.
  split; [now eexists|].
  apply generateFolderName_fixed, generateFolderName_name_chars.
Qed.

End NamingFacts.

(** ** The folder of the day *)
Module CalendarFacts.
Import Calendar.
Local Open Scope Z_scope.

Lemma digit_not_slash n : Ascii.eqb (digit n) "/" = false.
Proof.
  unfold digit.
  assert (H : 0 <= n mod 10 < 10) by (apply Z.mod_pos_bound; lia).
  assert (n mod 10 = 0 \/ n mod 10 = 1 \/ n mod 10 = 2 \/ n mod 10 = 3
          \/ n mod 10 = 4 \/ n mod 10 = 5 \/ n mod 10 = 6 \/ n mod 10 = 7
          \/ n mod 10 = 8 \/ n mod 10 = 9) as Hcases by lia.
  repeat destruct Hcases as [-> | Hcases]; try reflexivity.
  now rewrite Hcases.
Qed.

Lemma replace_slashes_app a b :
  replace_slashes (a ++ b) = (replace_slashes a ++ replace_slashes b)%string.
Proof. induction a as [|c a IH]; simpl; [reflexivity|]. now rewrite IH. Qed.

Lemma replace_slashes_two_digits n : replace_slashes (two_digits n) = two_digits n.
Proof. unfold two_digits. simpl. now rewrite !digit_not_slash. Qed.

Lemma replace_slashes_decimal_go fuel n acc :
  replace_slashes (decimal_go fuel n acc)
  = decimal_go fuel n (replace_slashes acc).
Proof.
  revert n acc. induction fuel as [|fuel IH]; intros n acc; simpl; [reflexivity|].
  destruct (n <? 10).
  - simpl. now rewrite digit_not_slash.
  - rewrite IH. simpl. now rewrite digit_not_slash.
Qed.

Lemma replace_slashes_decimal n : replace_slashes (decimal n) = decimal n.
Proof. unfold decimal. now rewrite replace_slashes_decimal_go. Qed.

(** The name is the civil date of Madrid written [DD-MM-YYYY]. *)
Lemma generateDayFolderName_format h :
  generateDayFolderName h
  = let '(y, m, d) := civil_date europe_madrid (epoch_ms h) in
    (two_digits d ++ "-" ++ two_digits m ++ "-" ++ decimal y)%string.
Proof.
  unfold generateDayFolderName, format_es_ES, new_Date.
  destruct (civil_date europe_madrid (epoch_ms h)) as [[y m] d].
  rewrite !replace_slashes_app, !replace_slashes_two_digits, replace_slashes_decimal.
  reflexivity.
Qed.

(** C8.  The name of the day folder is the civil date of Europe/Madrid at
    the instant the host clock reads, written [DD-MM-YYYY]; two calls made
    in the same civil day of that zone give the same name, whatever the
    local time zone of each host. *)
Theorem generateDayFolderName_same_day (h1 h2 : host_clock) :
  civil_date europe_madrid (epoch_ms h1) = civil_date europe_madrid (epoch_ms h2) ->
  generateDayFolderName h1 = generateDayFolderName h2
  /\ generateDayFolderName h1
     = let '(y, m, d) := civil_date europe_madrid (epoch_ms h1) in
       (two_digits d ++ "-" ++ two_digits m ++ "-" ++ decimal y)%string.
Proof.
  intros Hday. split; [|apply generateDayFolderName_format].
  rewrite !generateDayFolderName_format. now rewrite Hday.
Qed.

(** 2 February 2026, 23:30 UTC, on a host eight hours behind UTC, and
    3 February 2026, 22:59 UTC, on a host nine hours ahead: both fall on
    3 February in Madrid. *)
Lemma generateDayFolderName_same_day_witness :
  generateDayFolderName {| epoch_ms := 1770075000000; host_utc_offset_min := -480 |}
  = generateDayFolderName {| epoch_ms := 1770159540000; host_utc_offset_min := 540 |}
  /\ generateDayFolderName {| epoch_ms := 1770075000000; host_utc_offset_min := -480 |}
     = "03-02-2026"%string.
Proof.
  apply (generateDayFolderName_same_day
           {| epoch_ms := 1770075000000; host_utc_offset_min := -480 |}
           {| epoch_ms := 1770159540000; host_utc_offset_min := 540 |}).
  vm_compute. reflexivity.
Defined.

End CalendarFacts.

(** ** The repository against the store *)
Module DriveFacts.
Import Js Drive DriveRepository FolderResolver FolderTree.

Lemma call_served {A} (r : request) (serve : M A) s :
  faults s = ∅ -> call r serve s = serve (record_request r s).
Proof. intros H. unfold call. now rewrite H, lookup_empty. Qed.

Lemma createFolder_served name parentId s :
  faults s = ∅ ->
  createFolder name parentId s
  = (Fulfilled (next_id s),
     add_file (folder_file (next_id s) name parentId)
       (record_request (FilesCreate name folder_mime [parentId]) s)).
Proof.
  intros H. unfold createFolder, files_create. unfold mbind, M_bind, bind.
  rewrite call_served by assumption. reflexivity.
Qed.

Lemma createRecursiveFolders_unfold name children parentId :
  createRecursiveFolders (Folder name children) parentId
  = (newFolderId ← createFolder name parentId;
     match children with
     | Some ((_ :: _) as cs) => createChildren cs newFolderId
     | _ => mret tt
     end;;
     mret newFolderId).
Proof. reflexivity. Qed.
Lemma createChildren_cons child cs id :
  createChildren (child :: cs) id
  = (createRecursiveFolders child id;; createChildren cs id).
Proof. reflexivity. Qed.



Lemma extends_refl s : extends s s [].
Proof. unfold extends. simpl. now rewrite !app_nil_r. Qed.

Lemma extends_trans s1 s2 s3 c1 c2 :
  extends s1 s2 c1 -> extends s2 s3 c2 -> extends s1 s3 (c1 ++ c2).
Proof.
  intros (Hf1 & Hp1 & Hfs1 & Hr1) (Hf2 & Hp2 & Hfs2 & Hr2). unfold extends.
  rewrite Hf2, Hp2, Hfs2, Hr2, Hf1, Hp1, Hfs1, Hr1, fmap_app, !app_assoc.
  auto.
Qed.

Lemma children_created_all cs : Forall tree_created cs -> children_created cs.
Proof.
  induction 1 as [|child cs Hchild _ IH]; intros id s Hs.
  - exists s, []. split; [reflexivity|]. split; [apply extends_refl|].
    repeat split.
  - destruct (Hchild id s Hs) as (s1 & c1 & Hrun1 & Hext1 & Hlen1 & Hnames1 & Hheld1).
    assert (Hs1 : faults s1 = ∅) by (destruct Hext1 as [-> _]; exact Hs).
    destruct (IH id s1 Hs1) as (s2 & c2 & Hrun2 & Hext2 & Hlen2 & Hnames2 & Hheld2).
    exists s2, (c1 ++ c2). split.
    { rewrite createChildren_cons. unfold mbind, M_bind, bind.
      now rewrite Hrun1. }
    split; [now apply (extends_trans s s1 s2)|].
    split; [rewrite length_app, Hlen1, Hlen2; reflexivity|].
    split; [rewrite fmap_app, Hnames1, Hnames2; reflexivity|].
    intros fs Hsub. split.
    + exists (next_id s). apply Hheld1. intros x Hx. apply Hsub, elem_of_app. now left.
    + apply Hheld2. intros x Hx. apply Hsub, elem_of_app. now right.
Qed.

Lemma createRecursiveFolders_tree folder : tree_created folder.
Proof.
  induction folder as [name children IH] using folder_spec_induction.
  intros parentId s Hs.
  set (root := folder_file (next_id s) name parentId).
  set (s0 := add_file root (record_request (FilesCreate name folder_mime [parentId]) s)).
  assert (Hs0 : faults s0 = ∅) by exact Hs.
  assert (Hext0 : extends s s0 [root]) by (unfold extends; simpl; auto).
  destruct (children_created_all _ IH (next_id s) s0 Hs0)
    as (s' & created & Hrun & Hext & Hlen & Hnames & Hheld).
  exists s', (root :: created). split.
  { rewrite createRecursiveFolders_unfold. unfold mbind, M_bind, bind.
    rewrite createFolder_served by exact Hs. fold s0.
    destruct children as [[|child cs]|].
    - injection Hrun as <-. reflexivity.
    - change (default [] (Some (child :: cs))) with (child :: cs) in Hrun.
      unfold s0, root in Hrun. now rewrite Hrun.
    - injection Hrun as <-. reflexivity. }
  split; [apply (extends_trans s s0 s' [root] created Hext0 Hext)|].
  split; [simpl; rewrite Hlen; now destruct children|].
  split; [rewrite fmap_cons, Hnames; now destruct children|].
  split; [reflexivity|].
  intros fs Hsub. simpl. split.
  - apply Hsub. apply list_elem_of_here.
  - destruct children as [cs|]; [|exact I].
    apply Hheld. intros x Hx. apply Hsub. now apply list_elem_of_further.
Qed.

Lemma findFolderByName_served name parentId s :
  faults s = ∅ ->
  findFolderByName name parentId s
  = (Fulfilled
       match List.filter (matches name folder_mime parentId) (files s) with
       | f :: _ => truthy_string (Some (file_id f))
       | [] => None
       end,
     record_request (FilesList name folder_mime parentId 1) s).
Proof.
  intros H. unfold findFolderByName, files_list. unfold mbind, M_bind, bind.
  rewrite call_served by assumption. cbn [files record_request].
  now destruct (List.filter _ (files s)).
Qed.

Lemma truthy_id id : id <> EmptyString -> truthy_string (Some id) = Some id.
Proof. intros H. unfold truthy_string. now destruct (decide (id = EmptyString)). Qed.

Lemma next_id_not_empty s : next_id s <> EmptyString.
Proof. discriminate. Qed.

Lemma matches_folder_file id name parentId :
  matches name folder_mime parentId (folder_file id name parentId) = true.
Proof.
  unfold matches, folder_file. cbn.
  rewrite !bool_decide_eq_true_2; [reflexivity|set_solver|reflexivity|reflexivity].
Qed.

Lemma resolve_twice name parentId s :
  faults s = ∅ ->
  Forall (fun f => file_id f <> EmptyString) (files s) ->
  exists id s1 s2,
    resolve name parentId s = (Fulfilled id, s1)
    /\ resolve name parentId s1 = (Fulfilled id, s2)
    /\ s2 = record_request (FilesList name folder_mime parentId 1) s1
    /\ match List.filter (matches name folder_mime parentId) (files s) with
       | f :: _ =>
           id = file_id f
           /\ s1 = record_request (FilesList name folder_mime parentId 1) s
       | [] =>
           id = next_id s
           /\ s1 = add_file (folder_file id name parentId)
                     (record_request (FilesCreate name folder_mime [parentId])
                        (record_request (FilesList name folder_mime parentId 1) s))
       end.
Proof.
  intros Hs Hids. unfold resolve. unfold mbind, M_bind, bind.
  rewrite findFolderByName_served by exact Hs.
  destruct (List.filter (matches name folder_mime parentId) (files s))
    as [|f rest] eqn:Hfilter.
  - rewrite createFolder_served by exact Hs.
    eexists _, _, _. split; [reflexivity|].
    rewrite findFolderByName_served by exact Hs.
    cbn [files add_file record_request]. rewrite List.filter_app, Hfilter.
    cbn [List.filter app]. rewrite matches_folder_file.
    rewrite truthy_id by apply next_id_not_empty.
    repeat split; reflexivity.
  - assert (Hf : file_id f <> EmptyString).
    { rewrite Forall_forall in Hids. apply Hids.
      apply list_elem_of_In. apply (List.filter_In (matches name folder_mime parentId) f (files s)).
      rewrite Hfilter. now left. }
    rewrite truthy_id by exact Hf.
    eexists _, _, _. split; [reflexivity|].
    rewrite findFolderByName_served by exact Hs.
    cbn [files record_request]. rewrite Hfilter, truthy_id by exact Hf.
    repeat split; reflexivity.
Qed.

(** *** Uploads *)

Lemma find_file_new fileId body s :
  file_id body = fileId ->
  exists f, find_file fileId (add_file body s) = Some f /\ file_id f = fileId.
Proof.
  intros Hid. unfold find_file.
  destruct (List.find (fun f => bool_decide (file_id f = fileId)) (files (add_file body s)))
    as [f|] eqn:Hfind.
  - exists f. split; [reflexivity|].
    apply List.find_some in Hfind as [_ Hf]. now apply bool_decide_eq_true_1 in Hf.
  - exfalso.
    assert (Hin : In body (files (add_file body s)))
      by (cbn [files add_file]; apply in_app_iff; right; now left).
    apply (List.find_none _ _ Hfind) in Hin.
    now rewrite bool_decide_eq_true_2 in Hin.
Qed.


Lemma files_create_served name mimeType parents body s :
  faults s = ∅ ->
  files_create name mimeType parents body s
  = (let f := {| file_id := next_id s; file_name := name; file_mimeType := mimeType;
                 file_parents := parents; file_trashed := false; file_body := body |} in
     (Fulfilled f, add_file f (record_request (FilesCreate name mimeType parents) s))).
Proof. intros Hs. unfold files_create. now rewrite call_served. Qed.

Lemma permissions_create_served fileId role type f s :
  faults s = ∅ -> find_file fileId s = Some f ->
  permissions_create fileId role type s
  = (Fulfilled tt,
     add_permission {| perm_fileId := fileId; perm_role := role; perm_type := type |}
       (record_request (PermissionsCreate fileId role type) s)).
Proof.
  intros Hs Hf. unfold permissions_create. rewrite call_served by exact Hs.
  change (find_file fileId (record_request (PermissionsCreate fileId role type) s))
    with (find_file fileId s).
  now rewrite Hf.
Qed.

Lemma files_get_served fileId f s :
  faults s = ∅ -> find_file fileId s = Some f ->
  files_get fileId s = (Fulfilled f, record_request (FilesGet fileId) s).
Proof.
  intros Hs Hf. unfold files_get. rewrite call_served by exact Hs.
  change (find_file fileId (record_request (FilesGet fileId) s))
    with (find_file fileId s).
  now rewrite Hf.
Qed.

Lemma uploadFile_served p s :
  faults s = ∅ ->
  exists md s',
    uploadFile p s = (Fulfilled md, s')
    /\ md_id md = next_id s
    /\ files s' = files s ++ [uploaded_file p s]
    /\ permissions s' = permissions s ++ [anyone_reader (next_id s)].
Proof.
  intros Hs. unfold uploadFile. unfold mbind, M_bind, bind.
  rewrite files_create_served by exact Hs. cbv zeta.
  fold (uploaded_file p s). cbn [file_id uploaded_file].
  destruct (find_file_new (next_id s) (uploaded_file p s)
              (record_request (FilesCreate (up_name p) (up_mimeType p) [up_parentId p]) s)
              eq_refl) as (f & Hfind & Hf).
  rewrite (permissions_create_served _ _ _ f) by (exact Hs || exact Hfind).
  rewrite (files_get_served _ f) by (exact Hs || exact Hfind).
  eexists _, _. split; [reflexivity|]. repeat split. exact Hf.
Qed.

(** *** Runs against a store that may fail *)

Lemma call_run {A} (r : request) (serve : M A) s :
  call r serve s
  = match faults s !! length (requests s) with
    | Some e => (Rejected e, record_request r s)
    | None => serve (record_request r s)
    end.
Proof. reflexivity. Qed.

Lemma files_create_run name mimeType parents body s :
  files_create name mimeType parents body s
  = match faults s !! length (requests s) with
    | Some e => (Rejected e, record_request (FilesCreate name mimeType parents) s)
    | None =>
        let f := {| file_id := next_id s; file_name := name; file_mimeType := mimeType;
                    file_parents := parents; file_trashed := false; file_body := body |} in
        (Fulfilled f, add_file f (record_request (FilesCreate name mimeType parents) s))
    end.
Proof. unfold files_create. rewrite call_run. now destruct (faults s !! _). Qed.

Lemma permissions_create_run fileId role type s :
  permissions_create fileId role type s
  = match faults s !! length (requests s), find_file fileId s with
    | Some e, _ => (Rejected e, record_request (PermissionsCreate fileId role type) s)
    | None, None =>
        (Rejected (not_found fileId), record_request (PermissionsCreate fileId role type) s)
    | None, Some _ =>
        (Fulfilled tt,
         add_permission {| perm_fileId := fileId; perm_role := role; perm_type := type |}
           (record_request (PermissionsCreate fileId role type) s))
    end.
Proof.
  unfold permissions_create. rewrite call_run.
  destruct (faults s !! _); [reflexivity|].
  change (find_file fileId (record_request (PermissionsCreate fileId role type) s))
    with (find_file fileId s).
  now destruct (find_file fileId s).
Qed.

Lemma files_get_run fileId s :
  files_get fileId s
  = match faults s !! length (requests s), find_file fileId s with
    | Some e, _ => (Rejected e, record_request (FilesGet fileId) s)
    | None, None => (Rejected (not_found fileId), record_request (FilesGet fileId) s)
    | None, Some f => (Fulfilled f, record_request (FilesGet fileId) s)
    end.
Proof.
  unfold files_get. rewrite call_run.
  destruct (faults s !! _); [reflexivity|].
  change (find_file fileId (record_request (FilesGet fileId) s))
    with (find_file fileId s).
  now destruct (find_file fileId s).
Qed.

(** The three requests of an upload, one after the other: the run stops at
    the first that the store fails. *)
Lemma uploadFile_run p s :
  exists f s',
    file_id f = next_id s
    /\ files s' = files s ++ [uploaded_file p s]
    /\ permissions s' = permissions s ++ [anyone_reader (next_id s)]
    /\ uploadFile p s
       = match faults s !! length (requests s) with
         | Some e =>
             (Rejected e,
              record_request (FilesCreate (up_name p) (up_mimeType p) [up_parentId p]) s)
         | None =>
             let s1 :=
               add_file (uploaded_file p s)
                 (record_request
                    (FilesCreate (up_name p) (up_mimeType p) [up_parentId p]) s) in
             match faults s !! (length (requests s) + 1) with
             | Some e =>
                 (Rejected e,
                  record_request (PermissionsCreate (next_id s) "reader" "anyone") s1)
             | None =>
                 match faults s !! (length (requests s) + 2) with
                 | Some e => (Rejected e, s')
                 | None => (Fulfilled (metadata_of f), s')
                 end
             end
         end.
Proof.
  destruct (find_file_new (next_id s) (uploaded_file p s)
              (record_request (FilesCreate (up_name p) (up_mimeType p) [up_parentId p]) s)
              eq_refl) as (f & Hfind & Hf).
  exists f. eexists. split; [exact Hf|].
  unfold uploadFile. unfold mbind, M_bind, bind.
  rewrite files_create_run.
  destruct (faults s !! length (requests s)) as [e|] eqn:H0.
  { instantiate (1 := record_request (FilesGet (next_id s))
       (add_permission (anyone_reader (next_id s))
         (record_request (PermissionsCreate (next_id s) "reader" "anyone")
            (add_file (uploaded_file p s)
               (record_request (FilesCreate (up_name p) (up_mimeType p) [up_parentId p]) s))))).
    now repeat split. }
  cbv zeta. cbn [file_id]. fold (uploaded_file p s).
  rewrite permissions_create_run.
  cbn [faults requests add_file record_request]. rewrite length_app. cbn [length].
  unfold uploaded_file, bufferToStream in Hfind |- *.
  destruct (faults s !! (length (requests s) + 1)) as [e|] eqn:H1.
  { now repeat split. }
  change (add_file ?b (record_request ?r s))
    with (add_file b (record_request r s)) in Hfind.
  rewrite Hfind.
  rewrite files_get_run.
  cbn [faults requests add_file add_permission record_request].
  rewrite !length_app. cbn [length].
  replace (length (requests s) + 1 + 1) with (length (requests s) + 2) by lia.
  change (find_file (next_id s) (add_permission ?q (record_request ?r ?x)))
    with (find_file (next_id s) x).
  rewrite Hfind.
  destruct (faults s !! (length (requests s) + 2)) as [e|] eqn:H2; now repeat split.
Qed.


Lemma public_read_granted fileId s :
  public_read fileId (add_permission (anyone_reader fileId) s).
Proof.
  unfold public_read. cbn [permissions add_permission].
  apply elem_of_app. right. apply list_elem_of_here.
Qed.

(** *** The claims *)

(** C4.  Against a store that serves its requests, [resolve] first asks for
    the folders named [name] under [parentId] that are not in the bin.  If
    there is one it returns the id of the first, and nothing but the query
    has reached the store; if there is none it creates one folder with that
    name and parent and returns the new id.  A second call right after the
    first returns the same id, and only queries: over the two calls at most
    one folder is created. *)
Theorem resolve_idempotent (name parentId : string) (s : state) :
  faults s = ∅ ->
  Forall (fun f => file_id f <> EmptyString) (files s) ->
  exists id s1 s2,
    resolve name parentId s = (Fulfilled id, s1)
    /\ resolve name parentId s1 = (Fulfilled id, s2)
    /\ files s2 = files s1
    /\ requests s2 = requests s1 ++ [FilesList name folder_mime parentId 1]
    /\ match List.filter (matches name folder_mime parentId) (files s) with
       | f :: _ =>
           id = file_id f
           /\ files s1 = files s
           /\ permissions s1 = permissions s
           /\ requests s1 = requests s ++ [FilesList name folder_mime parentId 1]
       | [] =>
           files s1 = files s ++ [folder_file id name parentId]
           /\ requests s1
              = requests s ++ [FilesList name folder_mime parentId 1;
                               FilesCreate name folder_mime [parentId]]
       end.
Proof.
  intros Hs Hids.
  destruct (resolve_twice name parentId s Hs Hids)
    as (id & s1 & s2 & Hfirst & Hsecond & Hs2 & Hcases).
  exists id, s1, s2. repeat split; try assumption.
  - now rewrite Hs2.
  - now rewrite Hs2.
  - destruct (List.filter (matches name folder_mime parentId) (files s)) as [|f rest].
    + destruct Hcases as [_ ->]. cbn [files requests add_file record_request].
      now rewrite <- app_assoc.
    + destruct Hcases as [-> ->]. repeat split.
Qed.

Lemma resolve_idempotent_witness :
  exists id s1 s2,
    resolve "2026" "root" Drive.empty = (Fulfilled id, s1)
    /\ resolve "2026" "root" s1 = (Fulfilled id, s2)
    /\ files s2 = files s1
    /\ requests s2 = requests s1 ++ [FilesList "2026" folder_mime "root" 1]
    /\ files s1 = files Drive.empty ++ [folder_file id "2026" "root"]
    /\ requests s1
       = requests Drive.empty ++ [FilesList "2026" folder_mime "root" 1;
                                  FilesCreate "2026" folder_mime ["root"]].
Proof.
  apply (resolve_idempotent "2026" "root" Drive.empty);
    [reflexivity | constructor].
Defined.

(** C7.  Against a store that serves its requests,
    [createRecursiveFolders] answers with the id of the folder made for the
    top node.  It sends one creation request per node of the tree and no
    query; the folders come into being parent first and the children in
    their given order, the first of them being the top node under
    [parentId]; and each child is held under the id given to its parent.
    For A with the children B and C, C with the child D, four folders are
    created: B and C under the id of A, D under the id of C. *)
Theorem createRecursiveFolders_preorder (folder : folder_spec)
    (parentId : string) (s : state) :
  faults s = ∅ ->
  (exists s' created,
      createRecursiveFolders folder parentId s = (Fulfilled (next_id s), s')
      /\ files s' = files s ++ created
      /\ requests s' = requests s ++ (create_request <$> created)
      /\ length created = size folder
      /\ file_name <$> created = preorder folder
      /\ head created = Some (folder_file (next_id s) (spec_name folder) parentId)
      /\ held created folder parentId (next_id s))
  /\ (let '(top, s') := createRecursiveFolders example_tree "root" Drive.empty in
      top = Fulfilled "f0"
      /\ files s' = [folder_file "f0" "A" "root"; folder_file "f1" "B" "f0";
                     folder_file "f2" "C" "f0"; folder_file "f3" "D" "f2"]).
Proof.
  intros Hs. split; [|split; reflexivity].
  destruct (createRecursiveFolders_tree folder parentId s Hs)
    as (s' & created & Hrun & (_ & _ & Hfiles & Hreqs) & Hlen & Hnames & Hhead & Hheld).
  exists s', created. repeat split; try assumption.
  now apply Hheld.
Qed.

Lemma createRecursiveFolders_preorder_witness :
  (exists s' created,
      createRecursiveFolders example_tree "root" Drive.empty
      = (Fulfilled (next_id Drive.empty), s')
      /\ files s' = files Drive.empty ++ created
      /\ requests s' = requests Drive.empty ++ (create_request <$> created)
      /\ length created = size example_tree
      /\ file_name <$> created = preorder example_tree
      /\ head created
         = Some (folder_file (next_id Drive.empty) (spec_name example_tree) "root")
      /\ held created example_tree "root" (next_id Drive.empty))
  /\ (let '(top, s') := createRecursiveFolders example_tree "root" Drive.empty in
      top = Fulfilled "f0"
      /\ files s' = [folder_file "f0" "A" "root"; folder_file "f1" "B" "f0";
                     folder_file "f2" "C" "f0"; folder_file "f3" "D" "f2"]).
Proof.
  apply (createRecursiveFolders_preorder example_tree "root" Drive.empty).
  reflexivity.
Defined.

(** C9, as the code has it.  [uploadFile] asks the store to make the file
    it has just created readable by anyone with the link, whatever the
    media type and the target folder: every upload that is fulfilled has
    put exactly one new file and one new permission, reader for anyone, on
    that file, and it is fulfilled exactly when the store serves its three
    requests.  The grant is a request of its own, sent after the creation:
    an upload the store fails at the grant leaves the new file behind
    without the permission, and one it fails at the last request leaves it
    with the permission.  [setPublicReadPermissions], when fulfilled, has
    given the same permission to [fileId], and it is fulfilled when the
    store serves the request and holds the file. *)
Theorem uploadFile_public_read (p : upload_params) (fileId : string) (s : state) :
  (forall md s',
      uploadFile p s = (Fulfilled md, s') ->
      md_id md = next_id s
      /\ files s' = files s ++ [uploaded_file p s]
      /\ permissions s' = permissions s ++ [anyone_reader (next_id s)]
      /\ public_read (md_id md) s')
  /\ match faults s !! length (requests s),
           faults s !! (length (requests s) + 1),
           faults s !! (length (requests s) + 2) with
     | None, None, None => exists md s', uploadFile p s = (Fulfilled md, s')
     | Some e, _, _ =>
         exists s',
           uploadFile p s = (Rejected e, s')
           /\ files s' = files s /\ permissions s' = permissions s
     | None, Some e, _ =>
         exists s',
           uploadFile p s = (Rejected e, s')
           /\ files s' = files s ++ [uploaded_file p s]
           /\ permissions s' = permissions s
     | None, None, Some e =>
         exists s',
           uploadFile p s = (Rejected e, s')
           /\ files s' = files s ++ [uploaded_file p s]
           /\ permissions s' = permissions s ++ [anyone_reader (next_id s)]
     end
  /\ (forall s',
        setPublicReadPermissions fileId s = (Fulfilled tt, s') ->
        files s' = files s
        /\ permissions s' = permissions s ++ [anyone_reader fileId]
        /\ public_read fileId s')
  /\ (faults s !! length (requests s) = None ->
      forall f, find_file fileId s = Some f ->
      exists s', setPublicReadPermissions fileId s = (Fulfilled tt, s')).
Proof.
  destruct (uploadFile_run p s) as (f & s3 & Hf & Hfiles & Hperms & Hrun).
  split; [|split; [|split]].
  - intros md s' Hup. rewrite Hrun in Hup.
    destruct (faults s !! length (requests s)); [discriminate|].
    cbv zeta in Hup.
    destruct (faults s !! (length (requests s) + 1)); [discriminate|].
    destruct (faults s !! (length (requests s) + 2)); [discriminate|].
    injection Hup as <- <-. cbn [md_id metadata_of].
    split; [exact Hf|]. split; [exact Hfiles|]. split; [exact Hperms|].
    unfold public_read. rewrite Hf, Hperms. apply elem_of_app. right.
    apply list_elem_of_here.
  - rewrite Hrun.
    destruct (faults s !! length (requests s)) as [e|].
    { eexists. split; [reflexivity|]. now split. }
    cbv zeta.
    destruct (faults s !! (length (requests s) + 1)) as [e|].
    { eexists. split; [reflexivity|]. now split. }
    destruct (faults s !! (length (requests s) + 2)) as [e|].
    + exists s3. now split.
    + now exists (metadata_of f), s3.
  - intros s' Hset. unfold setPublicReadPermissions in Hset.
    rewrite permissions_create_run in Hset.
    destruct (faults s !! length (requests s)); [discriminate|].
    destruct (find_file fileId s); [|discriminate].
    injection Hset as <-. split; [reflexivity|]. split; [reflexivity|].
    apply (public_read_granted fileId).
  - intros Hserved f0 Hfind. unfold setPublicReadPermissions.
    rewrite permissions_create_run, Hserved, Hfind. now eexists.
Qed.

Lemma uploadFile_public_read_witness :
  (exists md s',
      uploadFile pedido_pdf with_image = (Fulfilled md, s')
      /\ md_id md = next_id with_image
      /\ files s' = files with_image ++ [uploaded_file pedido_pdf with_image]
      /\ permissions s' = permissions with_image ++ [anyone_reader (next_id with_image)]
      /\ public_read (md_id md) s')
  /\ (exists s',
        setPublicReadPermissions "img" with_image = (Fulfilled tt, s')
        /\ files s' = files with_image
        /\ permissions s' = permissions with_image ++ [anyone_reader "img"]
        /\ public_read "img" s').
Proof.
  destruct (uploadFile_public_read pedido_pdf "img" with_image)
    as (Hpublic & Hrun & Hgrant & Hserved).
  split.
  - destruct Hrun as (md & s' & Hrun). exists md, s'.
    split; [exact Hrun|]. exact (Hpublic md s' Hrun).
  - destruct (Hserved eq_refl foto_png eq_refl) as (s' & Hset).
    exists s'. split; [exact Hset|]. exact (Hgrant s' Hset).
Defined.

(** C9 as the specification words it fails: a PDF uploaded to an internal
    folder ends up readable by anyone with the link. *)
Lemma uploadFile_pdf_is_public :
  ~ (forall (p : upload_params) (s s' : state) (md : metadata),
        up_mimeType p = "application/pdf" ->
        uploadFile p s = (Fulfilled md, s') ->
        ~ public_read (md_id md) s').
Proof.
  intros Hprivate.
  destruct (uploadFile_served pedido_pdf Drive.empty eq_refl)
    as (md & s' & Hrun & Hid & _ & Hperms).
  apply (Hprivate pedido_pdf Drive.empty s' md eq_refl Hrun).
  unfold public_read. rewrite Hid, Hperms. apply list_elem_of_here.
Qed.

End DriveFacts.

(** ** The upload handlers *)
Module ControllerFacts.
Import Js Promise Handler DriveRepository GoogleController Escenario.

(** *** The PDF batches *)
Lemma clasificar_spec files resultados index ex fa :
  length resultados <= length (drop index files) ->
  clasificar files index resultados ex fa
  = Fulfilled (ex ++ exitosos_de resultados,
               fa ++ fallidos_de (drop index files) resultados).
Proof.
  revert index ex fa.
  induction resultados as [|o rest IH]; intros index ex fa Hlen.
  - unfold fallidos_de, exitosos_de. rewrite zip_with_nil_r. simpl.
    now rewrite !app_nil_r.
  - assert (Hlt : index < length files).
    { rewrite length_drop in Hlen. simpl in Hlen. lia. }
    destruct (lookup_lt_is_Some_2 files index Hlt) as [f Hf].
    assert (Hdrop : drop index files = f :: drop (S index) files)
      by now apply drop_S.
    assert (Hrest : length rest <= length (drop (S index) files)).
    { rewrite Hdrop in Hlen. simpl in Hlen. lia. }
    rewrite Hdrop. destruct o as [pdfResult|reason]; simpl.
    + rewrite IH by exact Hrest. now rewrite <- app_assoc.
    + rewrite Hf, IH by exact Hrest. now rewrite <- app_assoc.
Qed.

Lemma exitosos_de_fulfilled v rest :
  exitosos_de (Fulfilled v :: rest) = exitoso_of v :: exitosos_de rest.
Proof. reflexivity. Qed.

Lemma exitosos_de_rejected e rest :
  exitosos_de (Rejected e :: rest) = exitosos_de rest.
Proof. reflexivity. Qed.

Lemma fallidos_de_fulfilled f files v rest :
  fallidos_de (f :: files) (Fulfilled v :: rest) = fallidos_de files rest.
Proof. reflexivity. Qed.

Lemma fallidos_de_rejected f files e rest :
  fallidos_de (f :: files) (Rejected e :: rest)
  = {| fa_archivo := originalname f; fa_error := reason_text e |}
      :: fallidos_de files rest.
Proof. reflexivity. Qed.

Lemma exitosos_fallidos_length files resultados :
  length resultados <= length files ->
  length (exitosos_de resultados) + length (fallidos_de files resultados)
  = length resultados.
Proof.
  revert files. induction resultados as [|o rest IH]; intros files Hlen.
  - unfold fallidos_de. now rewrite zip_with_nil_r.
  - destruct files as [|f files]; [simpl in Hlen; lia|].
    simpl in Hlen. specialize (IH files ltac:(lia)).
    destruct o as [v|e].
    + rewrite exitosos_de_fulfilled, fallidos_de_fulfilled. cbn [length]. lia.
    + rewrite exitosos_de_rejected, fallidos_de_rejected. cbn [length]. lia.
Qed.

Lemma map_calls_execute deps idCarpeta files w :
  map_calls
    (fun file =>
       invoke (Execute (executeArgs file idCarpeta))
         (fun n => execute (uploadUseCases deps) n (executeArgs file idCarpeta)))
    files w
  = Some (Fulfilled
            (imap (fun i file =>
                     started (now w)
                       (execute (uploadUseCases deps) (length (trace w) + i)
                          (executeArgs file idCarpeta))) files),
          {| now := now w;
             trace := trace w ++ ((fun file => (now w, Execute (executeArgs file idCarpeta))) <$> files) |}).
Proof.
  revert w. induction files as [|file files IH]; intros w.
  - simpl. unfold mret, task_ret, Handler.ret. rewrite app_nil_r. now destruct w.
  - cbn [map_calls]. unfold mbind, task_bind, Handler.bind, invoke.
    rewrite IH. cbn [now trace]. unfold mret, task_ret, Handler.ret.
    rewrite fmap_cons, <- app_assoc. cbn [app imap].
    rewrite Nat.add_0_r. do 3 f_equal. f_equal.
    apply imap_ext. intros i x _. cbn.
    rewrite length_app. cbn. do 2 f_equal. lia.
Qed.

Lemma settlements_length {A} (ps : list (promise A)) settled :
  settlements ps = Some settled -> length settled = length ps.
Proof.
  revert settled. induction ps as [|p ps IH]; intros settled; simpl.
  - now intros [= <-].
  - destruct p as [x|]; [|discriminate].
    destruct (settlements ps) as [xs|]; [|discriminate].
    intros [= <-]. simpl. now rewrite (IH xs).
Qed.

Lemma subirPDFs_run deps files idCarpeta w :
  subirPDFs deps files idCarpeta w
  = match settlements (upload_promises deps files idCarpeta w) with
    | Some settled =>
        Some (Fulfilled (batch_response files (List.map snd settled)),
              {| now := now w `max` max_list (List.map fst settled);
                 trace := trace w ++ ((fun file => (now w, Execute (executeArgs file idCarpeta))) <$> files) |})
    | None => None
    end.
Proof.
  unfold subirPDFs. unfold mbind, task_bind, Handler.bind.
  rewrite map_calls_execute. fold (upload_promises deps files idCarpeta w).
  unfold await, allSettled.
  destruct (settlements (upload_promises deps files idCarpeta w)) as [settled|] eqn:Hs;
    [|reflexivity].
  cbn [now trace]. unfold sync.
  rewrite clasificar_spec.
  2:{ rewrite drop_0, length_map, (settlements_length _ _ Hs).
      unfold upload_promises. now rewrite length_imap. }
  rewrite drop_0. reflexivity.
Qed.

Lemma try_catch_subirPDFs deps files idCarpeta w h :
  try_catch (fun _ => subirPDFs deps files idCarpeta w) h w
  = subirPDFs deps files idCarpeta w.
Proof.
  unfold try_catch. rewrite subirPDFs_run.
  now destruct (settlements (upload_promises deps files idCarpeta w)).
Qed.

Lemma suben_tras_carpeta deps files parentFolderId idCarpeta delay w :
  executeFolderDia (uploadUseCases deps) (length (trace w)) parentFolderId
  = Some (delay, Fulfilled idCarpeta) ->
  try_catch
    (folderDia ←
       invoke (ExecuteFolderDia parentFolderId)
         (fun n => executeFolderDia (uploadUseCases deps) n parentFolderId);
     idCarpeta ← await folderDia;
     subirPDFs deps files idCarpeta) on_error w
  = subirPDFs deps files idCarpeta (after_folder w parentFolderId delay).
Proof.
  intros Hdia. unfold try_catch, mbind, task_bind, Handler.bind, invoke, await.
  rewrite Hdia. cbn [started now trace]. fold (after_folder w parentFolderId delay).
  rewrite subirPDFs_run.
  now destruct (settlements (upload_promises deps files idCarpeta _)).
Qed.

Lemma uploadIntrastatPDF_accepted deps req w files parentFolderId idCarpeta delay :
  intrastat_accepted deps req w files parentFolderId idCarpeta delay ->
  uploadIntrastatPDF deps req w
  = subirPDFs deps files idCarpeta (after_folder w parentFolderId delay).
Proof.
  intros [Hfiles Hsome (marca & Hmarca & Hvalid & Hfolder) Hpdf Hdia].
  rewrite <- (suben_tras_carpeta deps files parentFolderId idCarpeta delay w Hdia).
  unfold uploadIntrastatPDF. rewrite Hfiles. cbn [default from_option id].
  rewrite bool_decide_eq_false_2 by (destruct files; [congruence|simpl; lia]).
  rewrite Hmarca. unfold includes. rewrite (bool_decide_eq_true_2 _ Hvalid).
  cbn [negb]. rewrite Hpdf. cbn [length].
  rewrite bool_decide_eq_false_2 by lia.
  unfold try_catch, mbind, task_bind, Handler.bind, sync. now rewrite Hfolder.
Qed.

Lemma truthy_string_Some o s : truthy_string o = Some s -> o = Some s.
Proof.
  destruct o as [t|]; [|discriminate]. unfold truthy_string.
  destruct (decide (t = EmptyString)); [discriminate|congruence].
Qed.

Lemma on_error_body e w resp w' m ex fa r :
  on_error e w = Some (Fulfilled resp, w') -> json resp <> BatchBody m ex fa r.
Proof.
  unfold on_error, respond, mret, task_ret, Handler.ret. intros [= <- <-]. discriminate.
Qed.

Lemma respond_error_body code e w resp w' m ex fa r :
  try_catch (respond code (ErrorBody e)) on_error w = Some (Fulfilled resp, w') ->
  json resp <> BatchBody m ex fa r.
Proof.
  unfold try_catch, respond, mret, task_ret, Handler.ret. intros [= <- <-]. discriminate.
Qed.

Lemma tras_carpeta_inv deps files parentFolderId w resp w' m ex fa r :
  try_catch
    (folderDia ←
       invoke (ExecuteFolderDia parentFolderId)
         (fun n => executeFolderDia (uploadUseCases deps) n parentFolderId);
     idCarpeta ← await folderDia;
     subirPDFs deps files idCarpeta) on_error w
  = Some (Fulfilled resp, w') ->
  json resp = BatchBody m ex fa r ->
  exists idCarpeta delay,
    executeFolderDia (uploadUseCases deps) (length (trace w)) parentFolderId
    = Some (delay, Fulfilled idCarpeta).
Proof.
  unfold try_catch, mbind, task_bind, Handler.bind, invoke, await.
  destruct (executeFolderDia (uploadUseCases deps) (length (trace w)) parentFolderId)
    as [[delay [idCarpeta|e]]|]; cbn [started]; intros Hrun Hjson.
  - now exists idCarpeta, delay.
  - now apply on_error_body with (m := m) (ex := ex) (fa := fa) (r := r) in Hrun.
  - discriminate.
Qed.

Lemma uploadIntrastatPDF_batch_inv deps req w resp w' m ex fa r :
  uploadIntrastatPDF deps req w = Some (Fulfilled resp, w') ->
  json resp = BatchBody m ex fa r ->
  exists files parentFolderId idCarpeta delay,
    intrastat_accepted deps req w files parentFolderId idCarpeta delay.
Proof.
  unfold uploadIntrastatPDF. intros Hrun Hjson.
  destruct (ir_files req) as [files|] eqn:Hfiles; cbn [default from_option id] in Hrun.
  2:{ now apply respond_error_body with (m := m) (ex := ex) (fa := fa) (r := r) in Hrun. }
  destruct (bool_decide (length files = 0)) eqn:Hempty.
  { now apply respond_error_body with (m := m) (ex := ex) (fa := fa) (r := r) in Hrun. }
  destruct (truthy_string (ir_marca req)) as [marca|] eqn:Hmarca.
  2:{ now apply respond_error_body with (m := m) (ex := ex) (fa := fa) (r := r) in Hrun. }
  destruct (includes ["COMPRA"; "VENTA"]%string marca) eqn:Hvalid; cbn [negb] in Hrun.
  2:{ now apply respond_error_body with (m := m) (ex := ex) (fa := fa) (r := r) in Hrun. }
  destruct (bool_decide (0 < length (no_pdf files))) eqn:Hpdf.
  { now apply respond_error_body with (m := m) (ex := ex) (fa := fa) (r := r) in Hrun. }
  destruct (carpeta_intrastat deps marca) as [parentFolderId|e] eqn:Hfolder.
  2:{ unfold try_catch, mbind, task_bind, Handler.bind, sync in Hrun.
      now apply on_error_body with (m := m) (ex := ex) (fa := fa) (r := r) in Hrun. }
  assert (Hrun' :
    try_catch
      (folderDia ←
         invoke (ExecuteFolderDia parentFolderId)
           (fun n => executeFolderDia (uploadUseCases deps) n parentFolderId);
       idCarpeta ← await folderDia;
       subirPDFs deps files idCarpeta) on_error w
    = Some (Fulfilled resp, w')).
  { rewrite <- Hrun. reflexivity. }
  destruct (tras_carpeta_inv _ _ _ _ _ _ _ _ _ _ Hrun' Hjson) as (idCarpeta & delay & Hdia).
  exists files, parentFolderId, idCarpeta, delay. split.
  - exact Hfiles.
  - apply bool_decide_eq_false_1 in Hempty. intros ->. now apply Hempty.
  - exists marca. split; [exact Hmarca|]. split; [|exact Hfolder].
    now apply bool_decide_eq_true_1 in Hvalid.
  - apply bool_decide_eq_false_1 in Hpdf. destruct (no_pdf files); [reflexivity|].
    simpl in Hpdf. lia.
  - exact Hdia.
Qed.

Lemma uploadInventarioPDF_accepted deps req_files w files parentFolderId idCarpeta delay :
  inventario_accepted deps req_files w files parentFolderId idCarpeta delay ->
  uploadInventarioPDF deps req_files w
  = subirPDFs deps files idCarpeta (after_folder w parentFolderId delay).
Proof.
  intros [Hfiles Hsome Hpdf Hfolder Hdia].
  rewrite <- (suben_tras_carpeta deps files parentFolderId idCarpeta delay w Hdia).
  unfold uploadInventarioPDF. rewrite Hfiles. cbn [default from_option id].
  rewrite bool_decide_eq_false_2 by (destruct files; [congruence|simpl; lia]).
  rewrite Hpdf. cbn [length].
  rewrite bool_decide_eq_false_2 by lia.
  unfold try_catch, mbind, task_bind, Handler.bind, sync. now rewrite Hfolder.
Qed.

Lemma uploadInventarioPDF_batch_inv deps req_files w resp w' m ex fa r :
  uploadInventarioPDF deps req_files w = Some (Fulfilled resp, w') ->
  json resp = BatchBody m ex fa r ->
  exists files parentFolderId idCarpeta delay,
    inventario_accepted deps req_files w files parentFolderId idCarpeta delay.
Proof.
  unfold uploadInventarioPDF. intros Hrun Hjson.
  destruct req_files as [files|]; cbn [default from_option id] in Hrun.
  2:{ now apply respond_error_body with (m := m) (ex := ex) (fa := fa) (r := r) in Hrun. }
  destruct (bool_decide (length files = 0)) eqn:Hempty.
  { now apply respond_error_body with (m := m) (ex := ex) (fa := fa) (r := r) in Hrun. }
  destruct (bool_decide (0 < length (no_pdf files))) eqn:Hpdf.
  { now apply respond_error_body with (m := m) (ex := ex) (fa := fa) (r := r) in Hrun. }
  destruct (getInventarioFolderID (driveIds deps)) as [parentFolderId|e] eqn:Hfolder.
  2:{ unfold try_catch, mbind, task_bind, Handler.bind, sync in Hrun.
      now apply on_error_body with (m := m) (ex := ex) (fa := fa) (r := r) in Hrun. }
  assert (Hrun' :
    try_catch
      (folderDia ←
         invoke (ExecuteFolderDia parentFolderId)
           (fun n => executeFolderDia (uploadUseCases deps) n parentFolderId);
       idCarpeta ← await folderDia;
       subirPDFs deps files idCarpeta) on_error w
    = Some (Fulfilled resp, w')).
  { rewrite <- Hrun. reflexivity. }
  destruct (tras_carpeta_inv _ _ _ _ _ _ _ _ _ _ Hrun' Hjson) as (idCarpeta & delay & Hdia).
  exists files, parentFolderId, idCarpeta, delay. split.
  - reflexivity.
  - apply bool_decide_eq_false_1 in Hempty. intros ->. now apply Hempty.
  - apply bool_decide_eq_false_1 in Hpdf. destruct (no_pdf files); [reflexivity|].
    simpl in Hpdf. lia.
  - exact Hfolder.
  - exact Hdia.
Qed.

(** Every response with a batch body is the response built from the results
    of as many uploads as there are files. *)
Lemma subirPDFs_response deps files idCarpeta w resp w' :
  subirPDFs deps files idCarpeta w = Some (Fulfilled resp, w') ->
  exists settled,
    settlements (upload_promises deps files idCarpeta w) = Some settled
    /\ length settled = length files
    /\ resp = batch_response files (List.map snd settled)
    /\ w' = {| now := now w `max` max_list (List.map fst settled);
               trace := trace w ++ ((fun file => (now w, Execute (executeArgs file idCarpeta))) <$> files) |}.
Proof.
  rewrite subirPDFs_run.
  destruct (settlements (upload_promises deps files idCarpeta w)) as [settled|] eqn:Hs;
    [|discriminate].
  intros [= <- <-]. exists settled. repeat split.
  rewrite (settlements_length _ _ Hs). unfold upload_promises. apply length_imap.
Qed.

Lemma default_fallidos (fallidos : list fallido) :
  default [] (if bool_decide (0 < length fallidos) then Some fallidos else None)
  = fallidos.
Proof.
  destruct fallidos as [|f fs]; [reflexivity|].
  rewrite bool_decide_eq_true_2 by (simpl; lia). reflexivity.
Qed.

Lemma statusCode_classified (exitosos : list exitoso) (fallidos : list fallido) :
  (length exitosos = 0 -> 0 < length fallidos -> statusCode exitosos fallidos = 500%Z)
  /\ (0 < length exitosos -> length fallidos = 0 -> statusCode exitosos fallidos = 201%Z)
  /\ (0 < length exitosos -> 0 < length fallidos -> statusCode exitosos fallidos = 207%Z).
Proof.
  unfold statusCode. repeat split; intros H1 H2.
  - rewrite bool_decide_eq_false_2 by lia. now rewrite bool_decide_eq_true_2.
  - now rewrite bool_decide_eq_true_2.
  - rewrite !bool_decide_eq_false_2 by lia. reflexivity.
Qed.

Lemma batch_response_classified files resultados m ex fa r :
  files <> [] -> length resultados = length files ->
  json (batch_response files resultados) = BatchBody m ex fa r ->
  ex = exitosos_de resultados
  /\ default [] fa = fallidos_de files resultados
  /\ total r = length files
  /\ n_exitosos r = length ex
  /\ n_fallidos r = length (default [] fa)
  /\ length ex + length (default [] fa) = length files.
Proof.
  intros Hsome Hlen. unfold batch_response. cbn [json]. intros [= <- <- <- <-].
  rewrite default_fallidos. cbn [total n_exitosos n_fallidos].
  repeat split. rewrite <- Hlen. apply exitosos_fallidos_length. lia.
Qed.



(** C2.  In every batch response of [uploadIntrastatPDF] and of
    [uploadInventarioPDF] the successes and the failures together are as
    many as the files submitted, [resumen.total] is that number, and the two
    lists are the fulfilled and the rejected ones among one result per file:
    each file is in exactly one of the two lists.  (The response leaves
    [fallidos] out when it is empty.) *)
Theorem batch_counts (deps : dependencies) (req : intrastat_request)
    (req_files : option (list multer_file)) (w : world) :
  (forall resp w' m ex fa r,
      uploadIntrastatPDF deps req w = Some (Fulfilled resp, w') ->
      json resp = BatchBody m ex fa r ->
      length ex + length (default [] fa) = length (default [] (ir_files req))
      /\ total r = length (default [] (ir_files req))
      /\ n_exitosos r = length ex
      /\ n_fallidos r = length (default [] fa)
      /\ exists resultados,
           length resultados = length (default [] (ir_files req))
           /\ ex = exitosos_de resultados
           /\ default [] fa = fallidos_de (default [] (ir_files req)) resultados)
  /\ (forall resp w' m ex fa r,
        uploadInventarioPDF deps req_files w = Some (Fulfilled resp, w') ->
        json resp = BatchBody m ex fa r ->
        length ex + length (default [] fa) = length (default [] req_files)
        /\ total r = length (default [] req_files)
        /\ n_exitosos r = length ex
        /\ n_fallidos r = length (default [] fa)
        /\ exists resultados,
             length resultados = length (default [] req_files)
             /\ ex = exitosos_de resultados
             /\ default [] fa = fallidos_de (default [] req_files) resultados).
Proof.
  split; intros resp w' m ex fa r Hrun Hjson.
  - destruct (uploadIntrastatPDF_batch_inv _ _ _ _ _ _ _ _ _ Hrun Hjson)
      as (files & parentFolderId & idCarpeta & delay & Hacc).
    rewrite (uploadIntrastatPDF_accepted _ _ _ _ _ _ _ Hacc) in Hrun.
    destruct (subirPDFs_response _ _ _ _ _ _ Hrun) as (settled & _ & Hlen & -> & _).
    assert (Hlen' : length (List.map snd settled) = length files)
      by now rewrite length_map.
    destruct (batch_response_classified files _ m ex fa r (ia_some _ _ _ _ _ _ _ Hacc) Hlen' Hjson)
      as (Hex & Hfa & Htotal & Hnex & Hnfa & Hsum).
    rewrite (ia_files _ _ _ _ _ _ _ Hacc). cbn [default from_option id].
    repeat split; try assumption. now exists (List.map snd settled).
  - destruct (uploadInventarioPDF_batch_inv _ _ _ _ _ _ _ _ _ Hrun Hjson)
      as (files & parentFolderId & idCarpeta & delay & Hacc).
    rewrite (uploadInventarioPDF_accepted _ _ _ _ _ _ _ Hacc) in Hrun.
    destruct (subirPDFs_response _ _ _ _ _ _ Hrun) as (settled & _ & Hlen & -> & _).
    assert (Hlen' : length (List.map snd settled) = length files)
      by now rewrite length_map.
    destruct (batch_response_classified files _ m ex fa r (va_some _ _ _ _ _ _ _ Hacc) Hlen' Hjson)
      as (Hex & Hfa & Htotal & Hnex & Hnfa & Hsum).
    rewrite (va_files _ _ _ _ _ _ _ Hacc). cbn [default from_option id].
    repeat split; try assumption. now exists (List.map snd settled).
Qed.

Lemma batch_counts_witness :
  (length (exitosos_de resultados_tres)
   + length (default [] (Some (fallidos_de tres resultados_tres)))
   = length (default [] (ir_files (compra tres)))
   /\ 3 = length (default [] (ir_files (compra tres)))
   /\ 2 = length (exitosos_de resultados_tres)
   /\ 1 = length (default [] (Some (fallidos_de tres resultados_tres)))
   /\ exists resultados,
        length resultados = length (default [] (ir_files (compra tres)))
        /\ exitosos_de resultados_tres = exitosos_de resultados
        /\ default [] (Some (fallidos_de tres resultados_tres))
           = fallidos_de (default [] (ir_files (compra tres))) resultados)
  /\ (length (exitosos_de resultados_inventario)
      + length (default [] (Some (fallidos_de tres resultados_inventario)))
      = length (default [] (Some tres))
      /\ 3 = length (default [] (Some tres))
      /\ 2 = length (exitosos_de resultados_inventario)
      /\ 1 = length (default [] (Some (fallidos_de tres resultados_inventario)))
      /\ exists resultados,
           length resultados = length (default [] (Some tres))
           /\ exitosos_de resultados_inventario = exitosos_de resultados
           /\ default [] (Some (fallidos_de tres resultados_inventario))
              = fallidos_de (default [] (Some tres)) resultados).
Proof.
  split.
  - eapply (proj1 (batch_counts deps (compra tres) (Some tres) start)
              (batch_response tres resultados_tres) _ _
              (exitosos_de resultados_tres)
              (Some (fallidos_de tres resultados_tres))
              {| total := 3; n_exitosos := 2; n_fallidos := 1 |});
      reflexivity.
  - eapply (proj2 (batch_counts deps (compra tres) (Some tres) start)
              (batch_response tres resultados_inventario) _ _
              (exitosos_de resultados_inventario)
              (Some (fallidos_de tres resultados_inventario))
              {| total := 3; n_exitosos := 2; n_fallidos := 1 |});
      reflexivity.
Defined.



(** *** The payroll upload *)

Lemma subirDetalle_run deps folderId archivo w :
  subirDetalle deps folderId archivo w
  = Some (Fulfilled
            (continue id_o_null
               (started (now w)
                  (uploadFileToFolder (uploadUseCases deps) (length (trace w))
                     (uploadArgs archivo folderId)))),
          {| now := now w;
             trace := trace w ++ [(now w, UploadFileToFolder (uploadArgs archivo folderId))] |}).
Proof. reflexivity. Qed.

Lemma map_calls_subirDetalle deps folderId archivos w :
  map_calls (subirDetalle deps folderId) archivos w
  = Some (Fulfilled
            (continue id_o_null
               <$> detalle_promises deps folderId archivos (now w) (length (trace w))),
          {| now := now w;
             trace := trace w
                      ++ ((fun archivo => (now w, UploadFileToFolder (uploadArgs archivo folderId)))
                            <$> archivos) |}).
Proof.
  revert w. induction archivos as [|archivo archivos IH]; intros w.
  - simpl. unfold mret, task_ret, Handler.ret. rewrite app_nil_r. now destruct w.
  - cbn [map_calls]. unfold mbind, task_bind, Handler.bind.
    rewrite subirDetalle_run, IH. cbn [now trace].
    unfold mret, task_ret, Handler.ret.
    unfold detalle_promises.
    rewrite fmap_cons, <- app_assoc. cbn [app imap fmap list_fmap].
    rewrite Nat.add_0_r. do 3 f_equal. f_equal. f_equal.
    apply imap_ext. intros i x _. cbn.
    rewrite length_app. cbn. do 2 f_equal. lia.
Qed.

Lemma first_rejection_caught (ps : list (promise excel_result)) :
  first_rejection (continue id_o_null <$> ps) = None.
Proof.
  induction ps as [|p ps IH]; [reflexivity|].
  rewrite fmap_cons. cbn [first_rejection]. rewrite IH.
  destruct p as [[t [r|e]]|]; reflexivity.
Qed.

Lemma settlements_caught (ps : list (promise excel_result)) :
  settlements (continue id_o_null <$> ps)
  = match settlements ps with
    | Some settled =>
        Some ((fun x : nat * outcome excel_result => (x.1, id_o_null x.2)) <$> settled)
    | None => None
    end.
Proof.
  induction ps as [|p ps IH]; [reflexivity|].
  rewrite fmap_cons. cbn [settlements]. rewrite IH.
  destruct p as [[t o]|]; [|reflexivity].
  cbn [continue]. now destruct (settlements ps).
Qed.

Lemma all_caught (ps : list (promise excel_result)) :
  all (continue id_o_null <$> ps)
  = match settlements ps with
    | Some settled =>
        Some (max_list (List.map fst settled),
              Fulfilled ((fun x : nat * outcome excel_result => id_de x.2) <$> settled))
    | None => None
    end.
Proof.
  unfold all. rewrite first_rejection_caught, settlements_caught.
  destruct (settlements ps) as [settled|]; [|reflexivity].
  assert (Htimes :
    List.map fst ((fun x : nat * outcome excel_result => (x.1, id_o_null x.2)) <$> settled)
    = List.map fst settled).
  { induction settled as [|x xs IH]; [reflexivity|].
    rewrite fmap_cons. cbn [List.map fst]. now rewrite IH. }
  assert (Hvalues :
    omap fulfilled_value
      (List.map snd ((fun x : nat * outcome excel_result => (x.1, id_o_null x.2)) <$> settled))
    = (fun x : nat * outcome excel_result => id_de x.2) <$> settled).
  { clear Htimes. induction settled as [|[t [r|e]] xs IH]; [reflexivity| |];
      rewrite !fmap_cons; cbn [List.map snd omap list_omap id_o_null fulfilled_value id_de];
      f_equal; exact IH. }
  now rewrite Htimes, Hvalues.
Qed.

Lemma sin_nulos_ids (settled : list (nat * outcome excel_result)) :
  sin_nulos ((fun x : nat * outcome excel_result => id_de x.2) <$> settled)
  = ids_subidos settled.
Proof.
  unfold sin_nulos, ids_subidos.
  induction settled as [|[t [r|e]] xs IH]; [reflexivity| |];
    rewrite fmap_cons; cbn [omap list_omap id_de snd]; [f_equal|]; exact IH.
Qed.

Lemma paso3_served deps archivoResumen d1 d2 fret fres fnom w s2 s1 delay subido :
  settlements (detalle_promises deps fret d2 (now w) (length (trace w))) = Some s2 ->
  settlements (detalle_promises deps fres d1 (now w) (length (trace w) + length d2))
  = Some s1 ->
  uploadFileToFolder (uploadUseCases deps)
    (length (trace w) + length d2 + length d1) (uploadArgs archivoResumen fnom)
  = Some (delay, Fulfilled subido) ->
  exists w',
    paso3 deps archivoResumen d1 d2 fret fres fnom w
    = Some (Fulfilled
              {| status := 200;
                 json := NominasBody (excel_id subido) (ids_subidos s2) (ids_subidos s1) |},
            w')
    /\ trace w'
       = trace w
         ++ ((fun archivo => (now w, UploadFileToFolder (uploadArgs archivo fret))) <$> d2)
         ++ ((fun archivo => (now w, UploadFileToFolder (uploadArgs archivo fres))) <$> d1)
         ++ [(now w, UploadFileToFolder (uploadArgs archivoResumen fnom))].
Proof.
  intros H2 H1 He. unfold paso3. unfold mbind, task_bind, Handler.bind.
  rewrite map_calls_subirDetalle. rewrite map_calls_subirDetalle. cbn [now trace].
  unfold invoke. cbn [now trace].
  rewrite !length_app, !length_fmap, He.
  rewrite !all_caught, H2, H1. cbn [started continue fulfilled_with].
  unfold await, all.
  cbn [first_rejection settlements List.map omap list_omap fulfilled_value fst snd].
  cbn [now trace]. unfold respond, mret, task_ret, Handler.ret.
  rewrite !sin_nulos_ids. eexists. split; [reflexivity|].
  cbn [trace]. now rewrite <- !app_assoc.
Qed.

Lemma uploadNominasExcels_accepted deps req w archivoResumen d1 d2 anio mes c :
  nominas_accepted deps req w archivoResumen d1 d2 anio mes c ->
  uploadNominasExcels deps req w
  = try_catch
      (paso3 deps archivoResumen d1 d2
         (folderRetenciones c) (folderResumenes c) (folderNominas c))
      on_error (tras_carpetas w anio mes c).
Proof.
  intros [Hres Hd1 Hd2 Hs1 Hs2 Hanio Hmes Hexcel Hpa Hpn Hfa Hfb Hret Hrs Hnom].
  unfold uploadNominasExcels. rewrite Hres, Hd1, Hd2, Hanio, Hmes.
  cbn [default from_option id].
  rewrite bool_decide_eq_false_2 by (destruct d1; [congruence|simpl; lia]).
  rewrite bool_decide_eq_false_2 by (destruct d2; [congruence|simpl; lia]).
  rewrite Hexcel. cbn [length]. rewrite bool_decide_eq_false_2 by lia.
  unfold try_catch at 1. unfold mbind, task_bind, Handler.bind, sync, invoke, await.
  rewrite Hpa, Hpn, Hfa. cbn [started now trace].
  rewrite length_app. cbn [length]. rewrite Hfb. cbn [started now trace].
  rewrite !length_app. cbn [length].
  replace (length (trace w) + 1 + 1) with (length (trace w) + 2) by lia.
  replace (length (trace w) + 2 + 1) with (length (trace w) + 3) by lia.
  replace (length (trace w) + 3 + 1) with (length (trace w) + 4) by lia.
  rewrite Hret, Hrs, Hnom. cbn [started].
  unfold all.
  cbn [first_rejection settlements List.map omap list_omap fulfilled_value fst snd].
  unfold try_catch, tras_carpetas. cbn [now trace].
  rewrite <- !app_assoc. reflexivity.
Qed.

(** C10.  In [uploadNominasExcels], once the request is accepted, the
    folders obtained and the summary file uploaded, the answer is 200 with
    the ids of the detail uploads that were fulfilled and nothing else: a
    rejected detail upload becomes [null] inside its own task and is
    filtered out, and the body has no count and no list of failures.  So
    there is a batch with a failed detail file whose response is the very
    response of a batch in which nothing failed. *)
Theorem uploadNominasExcels_silent :
  (forall deps req w archivoResumen d1 d2 anio mes c s2 s1 delay subido,
      nominas_accepted deps req w archivoResumen d1 d2 anio mes c ->
      settlements
        (detalle_promises deps (folderRetenciones c) d2
           (now (tras_carpetas w anio mes c))
           (length (trace (tras_carpetas w anio mes c))))
      = Some s2 ->
      settlements
        (detalle_promises deps (folderResumenes c) d1
           (now (tras_carpetas w anio mes c))
           (length (trace (tras_carpetas w anio mes c)) + length d2))
      = Some s1 ->
      uploadFileToFolder (uploadUseCases deps)
        (length (trace (tras_carpetas w anio mes c)) + length d2 + length d1)
        (uploadArgs archivoResumen (folderNominas c))
      = Some (delay, Fulfilled subido) ->
      exists w',
        uploadNominasExcels deps req w
        = Some (Fulfilled
                  {| status := 200;
                     json := NominasBody (excel_id subido)
                               (ids_subidos s2) (ids_subidos s1) |},
                w'))
  /\ (exists resp,
        fst <$> uploadNominasExcels deps nominas_con_fallo start = Some (Fulfilled resp)
        /\ fst <$> uploadNominasExcels deps nominas_sin_fallo start = Some (Fulfilled resp)
        /\ status resp = 200%Z
        /\ (exists archivo,
              archivo ∈ default [] (nr_archivosDetalle1 nominas_con_fallo)
              /\ forall n folderId, exists delay e,
                   uploadFileToFolder (uploadUseCases deps) n (uploadArgs archivo folderId)
                   = Some (delay, Rejected e))
        /\ (forall archivo,
              archivo ∈ [xls "r.xls"; xls "a.xls"; xls "t.xls"] ->
              forall n folderId, exists delay result,
                uploadFileToFolder (uploadUseCases deps) n (uploadArgs archivo folderId)
                = Some (delay, Fulfilled result))).
Proof.
  split.
  - intros deps req w archivoResumen d1 d2 anio mes c s2 s1 delay subido Hacc H2 H1 He.
    rewrite (uploadNominasExcels_accepted _ _ _ _ _ _ _ _ _ Hacc).
    destruct (paso3_served deps archivoResumen d1 d2 _ _ _ _ s2 s1 delay subido H2 H1 He)
      as (w' & Hrun & _).
    exists w'. unfold try_catch. now rewrite Hrun.
  - eexists. split; [vm_compute; reflexivity|]. split; [vm_compute; reflexivity|].
    split; [reflexivity|]. split.
    + exists (xls "b.xls"). split; [apply list_elem_of_here|].
      intros n folderId. now eexists _, _.
    + intros archivo Hin n folderId.
      apply list_elem_of_In in Hin. simpl in Hin.
      destruct Hin as [<-|[<-|[<-|[]]]]; now eexists _, _.
Qed.

Lemma uploadNominasExcels_silent_witness :
  exists w',
    uploadNominasExcels deps nominas_con_fallo start
    = Some (Fulfilled
              {| status := 200;
                 json := NominasBody "id-r.xls" ["id-t.xls"] ["id-a.xls"] |},
            w').
Proof.
  apply (proj1 uploadNominasExcels_silent deps nominas_con_fallo start
           (xls "r.xls") [xls "b.xls"; xls "a.xls"] [xls "t.xls"] "2026" "11" carpetas
           [(6, Fulfilled {| excel_id := "id-t.xls" |})]
           [(4, Rejected (Error "quota")); (6, Fulfilled {| excel_id := "id-a.xls" |})]
           3 {| excel_id := "id-r.xls" |});
    [split; first [reflexivity | discriminate] | reflexivity ..].
Defined.

End ControllerFacts.

(** ** The repository against a store that may fail *)
Module StoreRunFacts.
Import Js Drive DriveRepository FolderTree StoreRuns DriveFacts.

Lemma findFolderByName_run name parentId s :
  findFolderByName name parentId s
  = (match faults s !! length (requests s) with
     | Some e => Rejected e
     | None =>
         Fulfilled
           match List.filter (matches name folder_mime parentId) (files s) with
           | f :: _ => truthy_string (Some (file_id f))
           | [] => None
           end
     end,
     record_request (FilesList name folder_mime parentId 1) s).
Proof.
  unfold findFolderByName, files_list. unfold mbind, M_bind, bind.
  rewrite call_run. destruct (faults s !! length (requests s)); [reflexivity|].
  cbn [files record_request]. now destruct (List.filter _ (files s)).
Qed.

Lemma matches_spec name mimeType parent f :
  matches name mimeType parent f = true
  <-> file_name f = name /\ file_mimeType f = mimeType
      /\ parent ∈ file_parents f /\ file_trashed f = false.
Proof.
  unfold matches. rewrite !andb_true_iff, !bool_decide_eq_true, negb_true_iff.
  tauto.
Qed.

Lemma truthy_string_inv o s : truthy_string o = Some s -> o = Some s /\ s <> EmptyString.
Proof.
  destruct o as [t|]; [|discriminate]. unfold truthy_string.
  destruct (decide (t = EmptyString)); [discriminate|]. intros [= <-]. now split.
Qed.

(** X1.  [findFolderByName] only reads: whatever the store does, the
    files and the permissions are as before and exactly one query has been
    recorded.  An id it returns is not empty and is the id of a folder of
    that name under that parent that is not in the bin; it is rejected only
    with the error the store planned for this request; and it says [null]
    although a matching folder exists only when some folder carries the
    empty id, which [|| null] takes for no id. *)
Theorem findFolderByName_read_only (name parentId : string) (s : state) :
  let '(found, s') := findFolderByName name parentId s in
  files s' = files s
  /\ permissions s' = permissions s
  /\ requests s' = requests s ++ [FilesList name folder_mime parentId 1]
  /\ (forall id, found = Fulfilled (Some id) ->
        id <> EmptyString
        /\ exists f, f ∈ files s /\ file_id f = id /\ file_name f = name
                     /\ file_mimeType f = folder_mime
                     /\ parentId ∈ file_parents f /\ file_trashed f = false)
  /\ (forall e, found = Rejected e ->
        faults s !! length (requests s) = Some e)
  /\ (found = Fulfilled None ->
        forall f, f ∈ files s -> file_name f = name -> file_mimeType f = folder_mime ->
                  parentId ∈ file_parents f -> file_trashed f = false ->
                  exists g, g ∈ files s /\ file_id g = EmptyString).
Proof.
  rewrite findFolderByName_run.
  split; [reflexivity|]. split; [reflexivity|]. split; [reflexivity|].
  split; [|split].
  - intros id Hfound.
    destruct (faults s !! length (requests s)); [discriminate|].
    destruct (List.filter _ (files s)) as [|f rest] eqn:Hfilter; [discriminate|].
    assert (Hid : truthy_string (Some (file_id f)) = Some id) by congruence.
    apply truthy_string_inv in Hid as [[= <-] Hne].
    split; [exact Hne|].
    assert (Hin : In f (List.filter (matches name folder_mime parentId) (files s)))
      by (rewrite Hfilter; now left).
    apply List.filter_In in Hin as [Hin Hm]. apply matches_spec in Hm.
    exists f. split; [now apply list_elem_of_In|]. tauto.
  - intros e Hfound. destruct (faults s !! length (requests s)); [|discriminate].
    congruence.
  - intros Hfound f Hin Hname Hmime Hparent Htrash.
    destruct (faults s !! length (requests s)); [discriminate|].
    destruct (List.filter _ (files s)) as [|g rest] eqn:Hfilter.
    + exfalso. assert (Hf : In f (List.filter (matches name folder_mime parentId) (files s))).
      { apply List.filter_In. split; [now apply list_elem_of_In|].
        now apply matches_spec. }
      now rewrite Hfilter in Hf.
    + exists g. assert (Hg : In g (List.filter (matches name folder_mime parentId) (files s)))
        by (rewrite Hfilter; now left).
      apply List.filter_In in Hg as [Hg _]. split; [now apply list_elem_of_In|].
      assert (Hid : truthy_string (Some (file_id g)) = None) by congruence.
      unfold truthy_string in Hid.
      now destruct (decide (file_id g = EmptyString)).
Qed.

Lemma filter_matches_new name parentId name' parent' id :
  List.filter (matches name' folder_mime parent') [folder_file id name parentId]
  = if bool_decide (name' = name /\ parent' = parentId)
    then [folder_file id name parentId] else [].
Proof.
  cbn [List.filter].
  destruct (matches name' folder_mime parent' (folder_file id name parentId)) eqn:Hm.
  - apply matches_spec in Hm. cbn in Hm. destruct Hm as (Hn & _ & Hp & _).
    apply list_elem_of_singleton in Hp.
    rewrite bool_decide_eq_true_2; [reflexivity|]. now split.
  - rewrite bool_decide_eq_false_2; [reflexivity|]. intros [-> ->].
    rewrite matches_folder_file in Hm. discriminate.
Qed.



Lemma next_id_inj s s' : next_id s = next_id s' -> length (files s) = length (files s').
Proof. unfold next_id. intros [= H]. now apply (inj pretty) in H. Qed.

(** X3.  [createRecursiveFolders] run twice with the same tree and parent,
    against a store that serves its requests, leaves two trees: the second
    run creates as many folders as the first, with the same names in the
    same order, under a top folder with another id. *)
Theorem createRecursiveFolders_duplicates (folder : folder_spec)
    (parentId : string) (s : state) :
  faults s = ∅ ->
  exists first s1 second s2,
    createRecursiveFolders folder parentId s = (Fulfilled (next_id s), s1)
    /\ createRecursiveFolders folder parentId s1 = (Fulfilled (next_id s1), s2)
    /\ next_id s1 <> next_id s
    /\ files s2 = files s ++ first ++ second
    /\ length first = size folder /\ length second = size folder
    /\ file_name <$> first = file_name <$> second
    /\ head first = Some (folder_file (next_id s) (spec_name folder) parentId)
    /\ head second = Some (folder_file (next_id s1) (spec_name folder) parentId).
Proof.
  intros Hs.
  destruct (createRecursiveFolders_tree folder parentId s Hs)
    as (s1 & c1 & Hrun1 & (Hf1 & _ & Hfiles1 & _) & Hlen1 & Hnames1 & Hhead1 & _).
  assert (Hs1 : faults s1 = ∅) by now rewrite Hf1.
  destruct (createRecursiveFolders_tree folder parentId s1 Hs1)
    as (s2 & c2 & Hrun2 & (_ & _ & Hfiles2 & _) & Hlen2 & Hnames2 & Hhead2 & _).
  exists c1, s1, c2, s2. repeat split; try assumption.
  - intros Heq. apply next_id_inj in Heq. rewrite Hfiles1, length_app, Hlen1 in Heq.
    destruct folder. simpl in Heq. lia.
  - now rewrite Hfiles2, Hfiles1, <- app_assoc.
  - now rewrite Hnames1, Hnames2.
Qed.

Lemma createRecursiveFolders_duplicates_witness :
  exists first s1 second s2,
    createRecursiveFolders example_tree "root" Drive.empty
    = (Fulfilled (next_id Drive.empty), s1)
    /\ createRecursiveFolders example_tree "root" s1 = (Fulfilled (next_id s1), s2)
    /\ next_id s1 <> next_id Drive.empty
    /\ files s2 = files Drive.empty ++ first ++ second
    /\ length first = size example_tree /\ length second = size example_tree
    /\ file_name <$> first = file_name <$> second
    /\ head first = Some (folder_file (next_id Drive.empty) (spec_name example_tree) "root")
    /\ head second = Some (folder_file (next_id s1) (spec_name example_tree) "root").
Proof.
  apply (createRecursiveFolders_duplicates example_tree "root" Drive.empty).
  reflexivity.
Defined.

(** *** Runs that meet a failure *)

Lemma createFolder_run name parentId s :
  createFolder name parentId s
  = match faults s !! length (requests s) with
    | Some e => (Rejected e, record_request (FilesCreate name folder_mime [parentId]) s)
    | None =>
        (Fulfilled (next_id s),
         add_file (folder_file (next_id s) name parentId)
           (record_request (FilesCreate name folder_mime [parentId]) s))
    end.
Proof.
  unfold createFolder, files_create. unfold mbind, M_bind, bind.
  rewrite call_run. now destruct (faults s !! length (requests s)).
Qed.

Lemma stopped_createFolder name parentId s :
  stopped s (createFolder name parentId s).2 (createFolder name parentId s).1 1.
Proof.
  rewrite createFolder_run.
  destruct (faults s !! length (requests s)) as [e|] eqn:Hfault; cbn [fst snd].
  - split; [reflexivity|]. split; [reflexivity|]. exists [].
    split; [now rewrite app_nil_r|]. split; [now exists name, parentId|].
    split; [now rewrite Nat.add_0_r|]. simpl. lia.
  - split; [reflexivity|]. split; [reflexivity|].
    exists [folder_file (next_id s) name parentId]. repeat split.
Qed.

Lemma stopped_then {A B} s s1 s2 (a : A) (o : outcome B) t1 t2 :
  stopped s s1 (Fulfilled a) t1 -> stopped s1 s2 o t2 -> stopped s s2 o (t1 + t2).
Proof.
  intros (Hf1 & Hp1 & c1 & Hfiles1 & Hreq1 & Hlen1) (Hf2 & Hp2 & c2 & Hfiles2 & Ho).
  split; [congruence|]. split; [congruence|]. exists (c1 ++ c2).
  split; [now rewrite Hfiles2, Hfiles1, app_assoc|].
  destruct o as [b|e].
  - destruct Ho as [Hreq2 Hlen2]. split.
    + now rewrite Hreq2, Hreq1, fmap_app, app_assoc.
    + rewrite length_app. lia.
  - destruct Ho as ((name & parentId & Hreq2) & Hfault & Hlen2). split; [|split].
    + exists name, parentId. now rewrite Hreq2, Hreq1, fmap_app, !app_assoc.
    + rewrite <- Hf1, <- Hfault, Hreq1, !length_app, length_fmap. f_equal. lia.
    + rewrite length_app. lia.
Qed.

Lemma stopped_early {A B} s s1 e t1 t2 :
  stopped (A := A) s s1 (Rejected e) t1 -> stopped (A := B) s s1 (Rejected e) (t1 + t2).
Proof.
  intros (Hf1 & Hp1 & c1 & Hfiles1 & Hreq & Hfault & Hlen).
  split; [exact Hf1|]. split; [exact Hp1|]. exists c1.
  split; [exact Hfiles1|]. split; [exact Hreq|]. split; [exact Hfault|]. lia.
Qed.

Lemma stopped_refl {A} s (a : A) : stopped s s (Fulfilled a) 0.
Proof.
  split; [reflexivity|]. split; [reflexivity|]. exists [].
  now rewrite !app_nil_r.
Qed.

Lemma children_stop cs :
  Forall tree_stops cs ->
  forall id s,
    stopped s (createChildren cs id s).2 (createChildren cs id s).1 (size_all cs).
Proof.
  induction 1 as [|child cs Hchild _ IH]; intros id s.
  - apply stopped_refl.
  - rewrite createChildren_cons. unfold mbind, M_bind, bind.
    specialize (Hchild id s).
    destruct (createRecursiveFolders child id s) as [[top|e] s1]; cbn [fst snd] in *.
    + apply (stopped_then s s1 _ top _ (size child) (size_all cs) Hchild), IH.
    + exact (stopped_early (A := string) (B := unit) s s1 e _ _ Hchild).
Qed.

Lemma createRecursiveFolders_stops folder : tree_stops folder.
Proof.
  induction folder as [name children IH] using folder_spec_induction.
  intros parentId s. rewrite createRecursiveFolders_unfold.
  unfold mbind, M_bind, bind.
  pose proof (stopped_createFolder name parentId s) as Hroot.
  destruct (createFolder name parentId s) as [[newFolderId|e] s0]; cbn [fst snd] in *.
  - pose proof (children_stop _ IH newFolderId s0) as Hcs.
    destruct children as [[|child cs]|].
    + apply (stopped_then s s0 _ newFolderId _ 1 0 Hroot), stopped_refl.
    + change (default [] (Some (child :: cs))) with (child :: cs) in *.
      change (size (Folder name (Some (child :: cs))))
        with (1 + size_all (child :: cs)).
      destruct (createChildren (child :: cs) newFolderId s0) as [[[]|e] s1];
        cbn [fst snd] in *;
        apply (stopped_then s s0 _ newFolderId _ 1 _ Hroot); exact Hcs.
    + apply (stopped_then s s0 _ newFolderId _ 1 0 Hroot), stopped_refl.
  - assert (Hsize : size (Folder name children) = 1 + size_all (default [] children))
      by now destruct children.
    rewrite Hsize.
    exact (stopped_early (A := string) (B := string) s s0 e _ _ Hroot).
Qed.

(** X4.  [createRecursiveFolders] undoes nothing.  Against any store the run
    changes neither faults nor permissions and only adds folders; when it is
    fulfilled it has sent one creation per node; when it is rejected, the
    error is the one planned for the creation that failed, that request is
    the last one sent, and the folders created before it, fewer than the
    tree has nodes, are still there.  For A[B, C[D]] and a store that fails
    its third request: A and B exist, C and D do not. *)
Theorem createRecursiveFolders_no_rollback (folder : folder_spec)
    (parentId : string) (s : state) :
  (let '(top, s') := createRecursiveFolders folder parentId s in
   stopped s s' top (size folder))
  /\ (let '(top, s') := createRecursiveFolders example_tree "root" (failing_at 2) in
      top = Rejected quota
      /\ files s' = [folder_file "f0" "A" "root"; folder_file "f1" "B" "f0"]
      /\ length (requests s') = 3).
Proof.
  split; [|now vm_compute].
  pose proof (createRecursiveFolders_stops folder parentId s) as H.
  now destruct (createRecursiveFolders folder parentId s).
Qed.

End StoreRunFacts.

(** ** The handlers when something fails *)
Module RejectionFacts.
Import Js Promise Handler DriveRepository GoogleController Escenario Rejections.
Import ControllerFacts.
Local Open Scope string_scope.

Lemma on_error_run e w : on_error e w = Some (Fulfilled (error_response e), w).
Proof. reflexivity. Qed.

(** X5.  [uploadIntrastatPDF] answers a request that fails one of its four
    checks (no file, no [marca], a [marca] other than COMPRA and VENTA, a
    file that is not a PDF) with 400 and an error text, before any use case
    is called: the world is as it was.  One file of another media type
    refuses the whole batch, and the text lists the names of all such files
    in the order they were sent, separated by a comma and a blank. *)
Theorem uploadIntrastatPDF_rejects (deps : dependencies)
    (req : intrastat_request) (w : world) :
  (intrastat_invalid req ->
   exists text,
     uploadIntrastatPDF deps req w
     = Some (Fulfilled {| status := 400; json := ErrorBody text |}, w))
  /\ (forall files marca,
        ir_files req = Some files ->
        truthy_string (ir_marca req) = Some marca -> marca ∈ ["COMPRA"; "VENTA"] ->
        no_pdf files <> [] ->
        uploadIntrastatPDF deps req w
        = Some (Fulfilled
                  {| status := 400;
                     json := ErrorBody
                               ("Todos los archivos deben ser PDF. Archivos inválidos: "
                                ++ join ", " (List.map originalname (no_pdf files))) |},
                w)).
Proof.
  assert (Hpdf : forall files marca,
            ir_files req = Some files ->
            truthy_string (ir_marca req) = Some marca -> marca ∈ ["COMPRA"; "VENTA"] ->
            no_pdf files <> [] ->
            uploadIntrastatPDF deps req w
            = Some (Fulfilled
                      {| status := 400;
                         json := archivos_invalidos "PDF" (no_pdf files) |}, w)).
  { intros files marca Hfiles Hmarca Hvalid Hno.
    unfold uploadIntrastatPDF. rewrite Hfiles. cbn [default from_option id].
    assert (Hsome : files <> []) by (intros ->; now apply Hno).
    rewrite bool_decide_eq_false_2 by (destruct files; [congruence|simpl; lia]).
    rewrite Hmarca. unfold includes. rewrite (bool_decide_eq_true_2 _ Hvalid).
    cbn [negb].
    rewrite bool_decide_eq_true_2 by (destruct (no_pdf files); [congruence|simpl; lia]).
    reflexivity. }
  split; [|exact Hpdf].
  intros [Hempty|[Hmarca|[(marca & Hmarca & Hvalid)|Hno]]].
  - eexists. unfold uploadIntrastatPDF. rewrite Hempty. reflexivity.
  - destruct (default [] (ir_files req)) as [|f files] eqn:Hfiles.
    + eexists. unfold uploadIntrastatPDF. rewrite Hfiles. reflexivity.
    + eexists. unfold uploadIntrastatPDF. rewrite Hfiles, Hmarca. reflexivity.
  - destruct (default [] (ir_files req)) as [|f files] eqn:Hfiles.
    + eexists. unfold uploadIntrastatPDF. rewrite Hfiles. reflexivity.
    + eexists. unfold uploadIntrastatPDF. rewrite Hfiles, Hmarca.
      unfold includes. rewrite (bool_decide_eq_false_2 _ Hvalid). reflexivity.
  - destruct (ir_files req) as [files|] eqn:Hfiles; [|now contradiction Hno].
    cbn [default from_option id] in Hno.
    destruct (truthy_string (ir_marca req)) as [marca|] eqn:Hmarca.
    + destruct (decide (marca ∈ ["COMPRA"; "VENTA"])) as [Hvalid|Hinvalid].
      * eexists. now apply (Hpdf files marca).
      * assert (Hsome : files <> []) by (intros ->; now apply Hno).
        eexists. unfold uploadIntrastatPDF. rewrite Hfiles, Hmarca.
        cbn [default from_option id].
        rewrite bool_decide_eq_false_2 by (destruct files; [congruence|simpl; lia]).
        unfold includes. rewrite (bool_decide_eq_false_2 _ Hinvalid). reflexivity.
    + assert (Hsome : files <> []) by (intros ->; now apply Hno).
      eexists. unfold uploadIntrastatPDF. rewrite Hfiles, Hmarca.
      cbn [default from_option id].
      rewrite bool_decide_eq_false_2 by (destruct files; [congruence|simpl; lia]).
      reflexivity.
Qed.

Lemma uploadIntrastatPDF_checked deps req w files marca :
  intrastat_checked req files marca ->
  uploadIntrastatPDF deps req w
  = try_catch
      (parentFolderId ← sync (carpeta_intrastat deps marca);
       folderDia ←
         invoke (ExecuteFolderDia parentFolderId)
           (fun n => executeFolderDia (uploadUseCases deps) n parentFolderId);
       idCarpeta ← await folderDia;
       subirPDFs deps files idCarpeta)
      on_error w.
Proof.
  intros [Hfiles Hsome Hmarca Hvalid Hpdf].
  unfold uploadIntrastatPDF. rewrite Hfiles. cbn [default from_option id].
  rewrite bool_decide_eq_false_2 by (destruct files; [congruence|simpl; lia]).
  rewrite Hmarca. unfold includes. rewrite (bool_decide_eq_true_2 _ Hvalid).
  cbn [negb]. rewrite Hpdf. cbn [length].
  now rewrite bool_decide_eq_false_2 by lia.
Qed.




(** *** The payroll upload when the summary file is refused *)

Lemma first_rejection_ids (ps : list (promise excel_result)) :
  match continue (fulfilled_with Ids) (all (continue id_o_null <$> ps)) with
  | Some (_, Rejected _) => False
  | _ => True
  end.
Proof.
  rewrite all_caught. now destruct (settlements ps).
Qed.

Lemma all_summary (a b : promise parte) (p : promise excel_result) :
  match a with Some (_, Rejected _) => False | _ => True end ->
  match b with Some (_, Rejected _) => False | _ => True end ->
  all [a; b; continue (fulfilled_with Subido) p]
  = match p with
    | Some (t, Rejected e) => Some (t, Rejected e)
    | Some (t, Fulfilled result) =>
        match a, b with
        | Some (ta, Fulfilled va), Some (tb, Fulfilled vb) =>
            Some (max_list [ta; tb; t], Fulfilled [va; vb; Subido result])
        | _, _ => None
        end
    | None => None
    end.
Proof.
  intros Ha Hb. unfold all.
  destruct a as [[ta [va|ea]]|]; [| now destruct Ha |];
    destruct b as [[tb [vb|eb]]|]; try now destruct Hb.
  all: destruct p as [[t [result|e]]|]; reflexivity.
Qed.

Lemma paso3_run deps archivoResumen d1 d2 fret fres fnom w :
  let w' :=
    {| now := now w;
       trace := trace w
         ++ ((fun archivo => (now w, UploadFileToFolder (uploadArgs archivo fret))) <$> d2)
         ++ ((fun archivo => (now w, UploadFileToFolder (uploadArgs archivo fres))) <$> d1)
         ++ [(now w, UploadFileToFolder (uploadArgs archivoResumen fnom))] |} in
  paso3 deps archivoResumen d1 d2 fret fres fnom w
  = match uploadFileToFolder (uploadUseCases deps)
            (length (trace w) + length d2 + length d1) (uploadArgs archivoResumen fnom) with
    | Some (delay, Rejected e) =>
        Some (Rejected e, {| now := now w `max` (now w + delay); trace := trace w' |})
    | Some (delay, Fulfilled subido) =>
        match settlements (detalle_promises deps fret d2 (now w) (length (trace w))),
              settlements (detalle_promises deps fres d1 (now w)
                             (length (trace w) + length d2)) with
        | Some s2, Some s1 =>
            Some (Fulfilled
                    {| status := 200;
                       json := NominasBody (excel_id subido) (ids_subidos s2) (ids_subidos s1) |},
                  {| now := now w `max` max_list [max_list (List.map fst s2);
                                                  max_list (List.map fst s1);
                                                  now w + delay];
                     trace := trace w' |})
        | _, _ => None
        end
    | None => None
    end.
Proof.
  intros w'. unfold paso3. unfold mbind, task_bind, Handler.bind.
  rewrite map_calls_subirDetalle. rewrite map_calls_subirDetalle. cbn [now trace].
  unfold invoke. cbn [now trace].
  rewrite !length_app, !length_fmap.
  rewrite all_summary by apply first_rejection_ids.
  subst w'. cbn [trace]. rewrite <- !app_assoc.
  destruct (uploadFileToFolder _ _ _) as [[delay [subido|e]]|]; cbn [started].
  - rewrite !all_caught.
    destruct (settlements (detalle_promises deps fret d2 _ _)) as [s2|];
      [|reflexivity].
    destruct (settlements (detalle_promises deps fres d1 _ _)) as [s1|];
      [|reflexivity].
    cbn [continue fulfilled_with await]. cbn [now trace].
    unfold respond, mret, task_ret, Handler.ret. now rewrite !sin_nulos_ids.
  - reflexivity.
  - reflexivity.
Qed.





Lemma uploadIntrastatPDF_rejects_witness :
  uploadIntrastatPDF deps (compra [pdf "a.pdf"; txt "notas.txt"; txt "b.txt"]) start
  = Some (Fulfilled
            {| status := 400;
               json := ErrorBody
                         "Todos los archivos deben ser PDF. Archivos inválidos: notas.txt, b.txt" |},
          start).
Proof.
  apply (proj2 (uploadIntrastatPDF_rejects deps
                  (compra [pdf "a.pdf"; txt "notas.txt"; txt "b.txt"]) start)
           [pdf "a.pdf"; txt "notas.txt"; txt "b.txt"] "COMPRA");
    [reflexivity | reflexivity | apply list_elem_of_here | discriminate].
Defined.

End RejectionFacts.

(** ** Folder names: the edges *)
Module NamingEdgeFacts.
Import JsString NamingFacts.
Local Open Scope N_scope.

Lemma replace_spaces_from_length b s :
  (length (replace_spaces_from b s) <= length s)%nat.
Proof.
  revert b. induction s as [|c r IH]; intros b; simpl; [lia|].
  destruct (is_space c); [destruct b|]; simpl;
    [specialize (IH true) | specialize (IH true) | specialize (IH false)]; lia.
Qed.

Lemma replace_extension_length s :
  (length (replace_extension s) <= length s)%nat.
Proof.
  induction s as [|c r IH]; simpl; [lia|].
  destruct ((c =? dot) && nonempty r && forallb not_slash_dot r); simpl; lia.
Qed.

Lemma replace_spaces_from_spaceless b s :
  forallb (fun c => negb (is_space c)) (replace_spaces_from b s) = true.
Proof.
  revert b. induction s as [|c r IH]; intros b; simpl; [reflexivity|].
  destruct (is_space c) eqn:Hc; [destruct b|]; simpl; rewrite ?IH, ?Hc; reflexivity.
Qed.

(** X8.  In [generateFolderName] the final [trim] never removes anything:
    the whitespace was replaced before it runs.  So the name is the result
    of the three replacements, it is never longer than the text given, a
    text that starts with whitespace gives a name that starts with an
    underscore, and a text made of a dot and an extension only, such as
    .gitignore, gives the empty name. *)
Theorem generateFolderName_untrimmed (s : jsstring) :
  generateFolderName s = replace_spaces (remove_special (replace_extension s))
  /\ (length (generateFolderName s) <= length s)%nat
  /\ (forall c r, s = c :: r -> is_space c = true ->
        head (generateFolderName s) = Some underscore)
  /\ (forall r, s = dot :: r -> r <> [] -> forallb not_slash_dot r = true ->
        generateFolderName s = []).
Proof.
  assert (Htrim : generateFolderName s
                  = replace_spaces (remove_special (replace_extension s))).
  { unfold generateFolderName. apply trim_no_space, replace_spaces_from_spaceless. }
  split; [exact Htrim|]. split; [|split].
  - rewrite Htrim. unfold replace_spaces, remove_special.
    pose proof (replace_spaces_from_length false
                  (List.filter in_keep_class (replace_extension s))).
    pose proof (List.filter_length_le in_keep_class (replace_extension s)).
    pose proof (replace_extension_length s). lia.
  - intros c r -> Hc. rewrite Htrim. cbn [replace_extension].
    rewrite (space_no_dot c Hc). cbn [andb]. unfold remove_special.
    cbn [List.filter]. rewrite (space_keep c Hc).
    unfold replace_spaces. cbn [replace_spaces_from]. now rewrite Hc.
  - intros r -> Hne Hr. rewrite Htrim. cbn [replace_extension].
    rewrite Hr. destruct r; [congruence|]. reflexivity.
Qed.

Lemma generateFolderName_untrimmed_witness :
  head (generateFolderName (lit " a b ")) = Some underscore
  /\ generateFolderName (lit ".gitignore") = [].
Proof.
  split.
  - apply (proj1 (proj2 (proj2 (generateFolderName_untrimmed (lit " a b "))))
             32 (lit "a b ")); reflexivity.
  - apply (proj2 (proj2 (proj2 (generateFolderName_untrimmed (lit ".gitignore"))))
             (lit "gitignore")); [reflexivity | discriminate | reflexivity].
Defined.

End NamingEdgeFacts.
